(** * MCP-SERVER-CLIENT-SSE: the tool-calling bridge, its session lifecycle
      and the server-side tools, embedded from the Python sources

    Sources embedded here:
    - [client_sse.py]: [clean_schema], [convert_mcp_tools_to_gemini],
      [MCPClient.connect_to_sse_server], [MCPClient.cleanup],
      [MCPClient.process_query], [MCPClient.chat_loop], [main];
    - [main.py]: [run_command], [web_search], [get_weather],
      [add_integers];
    - [server_sse.py]: [web_search].

    Modelling conventions.
    - A Python [dict] with string keys is a [gmap string _]: keys are unique
      and two dicts are [==] exactly when they have the same lookups, which is
      the extensional equality of [gmap].
    - JSON-shaped Python values (schemas, tool arguments) are the tree type
      [json].  The schemas reach the client by deserialisation of a protocol
      message, so they are trees: no two positions share one dict object.
    - Code that talks to the outside world (the model API, the protocol
      session, context managers, the operating system) runs in the monad
      [M], which threads the state of the outside world and a log of the
      calls made, and which can raise.  The outside world is a record of
      oracles; nothing is assumed about them.
    - The objects of the model API's library are records of the values
      they are built from; what their constructors raise on values they do
      not accept is taken from the library ([GeminiLibrary]).
    - [print] calls only write to the console and are left out of the
      methods of the client; the interactive shell ([chat_loop], [main])
      records what it writes. *)

From stdpp Require Import gmap strings list fin_maps.

Set Warnings "-register-all".

Local Open Scope string_scope.
Local Open Scope list_scope.
Local Open Scope nat_scope.

(** * JSON-shaped values *)

Inductive json : Type :=
| JNull
| JBool (b : bool)
| JInt (z : Z)
| JFloat (mantissa exponent : Z)
| JStr (s : string)
| JArr (items : list json)
| JObj (d : gmap string json).

(** Nesting depth; only used to bound the recursion of [clean_schema] and to
    do induction on values. *)
Fixpoint json_depth (j : json) : nat :=
  match j with
  | JArr items => S (foldr (λ v acc, json_depth v `max` acc) 0 items)
  | JObj d => S (map_fold (λ _ v acc, json_depth v `max` acc) 0 d)
  | _ => 0
  end.

(** [isinstance(x, dict)] *)
Definition is_dict (j : json) : bool :=
  match j with JObj _ => true | _ => false end.

(** One step into a value: a dict key or a list index. *)
Inductive step : Type :=
| Key (k : string)
| Index (i : nat).

(** The value found by following [path] from the root of [j]. *)
Fixpoint json_at (path : list step) (j : json) : option json :=
  match path with
  | [] => Some j
  | Key k :: rest =>
      match j with
      | JObj d => d !! k ≫= json_at rest
      | _ => None
      end
  | Index i :: rest =>
      match j with
      | JArr items => items !! i ≫= json_at rest
      | _ => None
      end
  end.

(** "No [title] key at any depth": no dict anywhere in [j] has the key. *)
Definition title_free_everywhere (j : json) : Prop :=
  ∀ path d, json_at path j = Some (JObj d) → d !! "title" = None.

(** * Schema Sanitizer: [clean_schema] (client_sse.py, lines 185-206)

    The Python function mutates its argument and returns it; on a tree the
    returned value is the one computed here.  The recursion goes through
    [schema["properties"][key]], which is not a syntactic subterm of
    [schema] once [title] has been popped, so the function is written with
    a recursion budget and run with the depth of its argument, which is
    always enough ([clean_schema_rec_fuel], [clean_schema_dict]). *)

Fixpoint clean_schema_rec (fuel : nat) (schema : json) : json :=
  match fuel with
  | 0 => schema
  | S fuel' =>
      match schema with
      | JObj d =>
          (* schema.pop('title', None) *)
          let d1 := delete "title" d in
          (* if 'properties' in schema and isinstance(schema["properties"], dict) *)
          match d1 !! "properties" with
          | Some (JObj props) =>
              (* for key in schema['properties']:
                     schema['properties'][key] = clean_schema(schema["properties"][key]) *)
              JObj (<["properties" := JObj (clean_schema_rec fuel' <$> props)]> d1)
          | _ => JObj d1
          end
      | _ => schema
      end
  end.

Definition clean_schema (schema : json) : json :=
  clean_schema_rec (json_depth schema) schema.

(** The sub-schema reached from [s] through a chain of property names:
    [s["properties"][p1]["properties"][p2]...]. *)
Fixpoint schema_at (path : list string) (s : json) : option json :=
  match path with
  | [] => Some s
  | name :: rest =>
      match s with
      | JObj d =>
          match d !! "properties" with
          | Some (JObj props) => props !! name ≫= schema_at rest
          | _ => None
          end
      | _ => None
      end
  end.

(** [title_erasure j j']: [j'] is [j] with some [title] entries removed and
    nothing else changed.  In a dict every key other than [title] is kept,
    with a value related in the same way; a [title] entry is either removed
    (with all that is below it) or kept the same way. *)
Inductive title_erasure : json → json → Prop :=
| title_erasure_same j : title_erasure j j
| title_erasure_dict d d' :
    (∀ k, k ≠ "title" → option_Forall2 title_erasure (d !! k) (d' !! k)) →
    (d' !! "title" = None
     ∨ option_Forall2 title_erasure (d !! "title") (d' !! "title")) →
    title_erasure (JObj d) (JObj d').

(** ** Sample schemas *)

(** [{"type":"object","title":"Loc",
      "properties":{"city":{"type":"string","title":"City"}}}] *)
Definition schema_loc : json :=
  JObj {[ "type" := JStr "object"; "title" := JStr "Loc";
          "properties" :=
            JObj {[ "city" := JObj {[ "type" := JStr "string";
                                      "title" := JStr "City" ]} ]} ]}.

Definition schema_loc_cleaned : json :=
  JObj {[ "type" := JStr "object";
          "properties" :=
            JObj {[ "city" := JObj {[ "type" := JStr "string" ]} ]} ]}.

(** [{"type":"object",
      "$defs":{"Point":{"type":"object","title":"Point"}},
      "properties":{"p":{"$ref":"#/$defs/Point"}}}]: the titled sub-schema
    sits under [$defs], not under [properties]. *)
Definition schema_defs : json :=
  JObj {[ "type" := JStr "object";
          "$defs" :=
            JObj {[ "Point" := JObj {[ "type" := JStr "object";
                                       "title" := JStr "Point" ]} ]};
          "properties" :=
            JObj {[ "p" := JObj {[ "$ref" := JStr "#/$defs/Point" ]} ]} ]}.

(** [{"type":"object","properties":{"title":{"type":"string","title":"Title"}}}]:
    a tool that has a parameter named [title]. *)
Definition schema_book : json :=
  JObj {[ "type" := JStr "object";
          "properties" :=
            JObj {[ "title" := JObj {[ "type" := JStr "string";
                                       "title" := JStr "Title" ]} ]} ]}.

(** * Exceptions and effects *)

(** A raised Python exception, as far as the code can tell exceptions
    apart: whether its class derives from [Exception] (this is what
    [except Exception] catches; [KeyboardInterrupt], [SystemExit] and
    [asyncio.CancelledError] derive from [BaseException] only and pass
    through) and the text [str(e)]. *)
Record exn : Type := Exn { exn_is_Exception : bool; exn_str : string }.

Inductive outcome (A : Type) : Type :=
| Ok (a : A)
| Raise (e : exn).
Arguments Ok {A} a.
Arguments Raise {A} e.

Definition is_Ok {A} (o : outcome A) : bool :=
  match o with Ok _ => true | Raise _ => false end.

Definition TypeError (msg : string) : exn := Exn true msg.
Definition KeyError (key : string) : exn := Exn true ("'" +:+ key +:+ "'").
Definition AttributeError (msg : string) : exn := Exn true msg.

(** Pure code that can raise. *)
Global Instance outcome_ret : MRet outcome := λ A a, Ok a.
Global Instance outcome_bind : MBind outcome := λ A B k o,
  match o with
  | Ok a => k a
  | Raise e => Raise e
  end.

(** Code with effects: a state [Σ] is threaded through, and the run ends
    with a value or a raised exception.  The state reached when the
    exception was raised is kept: what the code did before raising
    stays done. *)
Definition M (Σ A : Type) : Type := Σ → Σ * outcome A.

Global Instance M_ret {Σ} : MRet (M Σ) := λ A a σ, (σ, Ok a).
Global Instance M_bind {Σ} : MBind (M Σ) := λ A B k c σ,
  match c σ with
  | (σ', Ok a) => k a σ'
  | (σ', Raise e) => (σ', Raise e)
  end.

Definition raise {Σ A} (e : exn) : M Σ A := λ σ, (σ, Raise e).

(** Run pure code that can raise. *)
Definition lift {Σ A} (o : outcome A) : M Σ A := λ σ, (σ, o).

(** [try: body  except Exception as e: handler e] *)
Definition try_except {Σ A} (body : M Σ A) (handler : exn → M Σ A) : M Σ A :=
  λ σ,
    match body σ with
    | (σ', Ok a) => (σ', Ok a)
    | (σ', Raise e) =>
        if exn_is_Exception e then handler e σ' else (σ', Raise e)
    end.

(** [for x in l: acc = body x acc], stopping at the first exception. *)
Fixpoint for_each {Σ A B} (body : A → B → M Σ B) (l : list A) (acc : B) : M Σ B :=
  match l with
  | [] => mret acc
  | x :: rest => acc' ← body x acc; for_each body rest acc'
  end.

(** ["\n"] *)
Definition newline : string := String (Ascii.ascii_of_nat 10) "".

(** * The two tool vocabularies *)

(** The protocol's tool descriptor ([mcp.types.Tool]), with the three
    attributes the client reads.  [description] is optional in the protocol:
    [None] when the server sent none. *)
Module mcp.
Record Tool : Type := {
  name : string;
  description : option string;
  inputSchema : json
}.
End mcp.

(** The model API's types ([google.generativeai.types] and the response
    objects), reduced to the fields the client reads or writes. *)
Module genai.
Record FunctionDeclaration : Type := {
  name : string;
  description : string;
  parameters : json
}.

(** [Tool(function_declarations=[...])]: one group of declarations. *)
Record Tool : Type := { function_declarations : list FunctionDeclaration }.

(** [part.function_call]: [fc_args] holds what
    [dict(part.function_call.args)] gives, [None] when that conversion
    raises (the client then goes on with the empty dict). *)
Record FunctionCall : Type := {
  fc_name : string;
  fc_args : option (gmap string json)
}.

(** A response part.  [function_call] is [Some] when the part has the
    attribute and it is truthy; [text] is the empty string on a part
    that carries no text. *)
Record Part : Type := {
  function_call : option FunctionCall;
  text : string
}.

Record Content : Type := { parts : list Part }.
Record Candidate : Type := { content : Content }.
Record Response : Type := { candidates : list Candidate }.
End genai.

(** * Tool Descriptor Translator: [convert_mcp_tools_to_gemini]
      (client_sse.py, lines 208-240) *)

Definition RETURN_TYPE_SUFFIX : string :=
  " The tool returns its result as a string.".

(** [a + b] where [b] is a [str]: string concatenation, a [TypeError] when
    [a] is [None]. *)
Definition str_add (a : option string) (b : string) : outcome string :=
  match a with
  | Some s => Ok (s +:+ b)
  | None => Raise (TypeError "unsupported operand type(s) for +: 'NoneType' and 'str'")
  end.

(** The two constructors the translator calls belong to the model API's
    library, not to this repository.  They validate what they are given:
    [FunctionDeclaration] converts [parameters] to the library's [Schema]
    message and raises on what that message does not accept (a key it
    does not know, for one).  What each of them raises, if anything, is
    taken from the library as it is; when it raises nothing, the object
    holds the values it was built from. *)
Record GeminiLibrary : Type := {
  FunctionDeclaration_raises : string → string → json → option exn;
  Tool_raises : list genai.FunctionDeclaration → option exn
}.

(** [FunctionDeclaration(name=..., description=..., parameters=...)] *)
Definition new_FunctionDeclaration (G : GeminiLibrary)
    (name description : string) (parameters : json)
  : outcome genai.FunctionDeclaration :=
  match FunctionDeclaration_raises G name description parameters with
  | Some e => Raise e
  | None =>
      Ok {| genai.name := name;
            genai.description := description;
            genai.parameters := parameters |}
  end.

(** [Tool(function_declarations=...)] *)
Definition new_Tool (G : GeminiLibrary)
    (function_declarations : list genai.FunctionDeclaration)
  : outcome genai.Tool :=
  match Tool_raises G function_declarations with
  | Some e => Raise e
  | None => Ok {| genai.function_declarations := function_declarations |}
  end.

(** The body of the loop, for one tool. *)
Definition convert_mcp_tool (G : GeminiLibrary) (tool : mcp.Tool)
  : outcome genai.Tool :=
  let parameters := clean_schema (mcp.inputSchema tool) in
  description ← str_add (mcp.description tool) RETURN_TYPE_SUFFIX;
  function_declaration ←
    new_FunctionDeclaration G (mcp.name tool) description parameters;
  new_Tool G [function_declaration].

(** [for tool in mcp_tools: ...; gemini_tools.append(gemini_tool)] *)
Fixpoint convert_loop (G : GeminiLibrary) (mcp_tools : list mcp.Tool)
    (gemini_tools : list genai.Tool) : outcome (list genai.Tool) :=
  match mcp_tools with
  | [] => Ok gemini_tools
  | tool :: rest =>
      gemini_tool ← convert_mcp_tool G tool;
      convert_loop G rest (gemini_tools ++ [gemini_tool])
  end.

Definition convert_mcp_tools_to_gemini (G : GeminiLibrary)
    (mcp_tools : list mcp.Tool) : outcome (list genai.Tool) :=
  convert_loop G mcp_tools [].

(** The declaration and the group built for one tool whose description is
    [desc]. *)
Definition declaration_of (tool : mcp.Tool) (desc : string)
  : genai.FunctionDeclaration :=
  {| genai.name := mcp.name tool;
     genai.description := desc +:+ RETURN_TYPE_SUFFIX;
     genai.parameters := clean_schema (mcp.inputSchema tool) |}.

Definition group_of (tool : mcp.Tool) (desc : string) : genai.Tool :=
  {| genai.function_declarations := [declaration_of tool desc] |}.

(** The library accepts [tool]: the tool has a description, and neither
    constructor raises on what the translator builds from it. *)
Definition accepted (G : GeminiLibrary) (tool : mcp.Tool) : Prop :=
  ∃ desc,
    mcp.description tool = Some desc
    ∧ FunctionDeclaration_raises G (mcp.name tool)
        (desc +:+ RETURN_TYPE_SUFFIX) (clean_schema (mcp.inputSchema tool))
      = None
    ∧ Tool_raises G [declaration_of tool desc] = None.

(** * The outside world of the client

    Everything the client awaits or calls outside its own code is an oracle
    that reads and updates the state of the outside world and may raise. *)

(** The two asynchronous context managers the client creates. *)
Inductive context_manager (streams : Type) : Type :=
| sse_client (url : string)
| ClientSession (read_write : streams).
Arguments sse_client {streams} url.
Arguments ClientSession {streams} read_write.

Record Outside : Type := {
  World : Type;
  (** what entering the SSE context yields: the stream pair *)
  Streams : Type;
  (** what entering the session context yields: the live session *)
  Session : Type;
  (** a raw tool result, of whatever Python type *)
  PyObj : Type;
  (** [sse_client(url).__aenter__()] *)
  aenter_sse_client : string → World → World * outcome Streams;
  (** [ClientSession( *streams).__aenter__()] *)
  aenter_ClientSession : Streams → World → World * outcome Session;
  (** [ctx.__aexit__(None, None, None)] *)
  aexit : context_manager Streams → World → World * outcome unit;
  (** [session.initialize()] *)
  session_initialize : Session → World → World * outcome unit;
  (** [session.list_tools()], then [.tools] *)
  session_list_tools : Session → World → World * outcome (list mcp.Tool);
  (** [session.call_tool(name, args)] *)
  session_call_tool :
    Session → string → gmap string json → World → World * outcome PyObj;
  (** [GenerativeModel(model_name, tools).generate_content(contents)] *)
  model_generate_content :
    list genai.Tool → list json → World → World * outcome genai.Response;
  (** the constructors of the model API's library *)
  library : GeminiLibrary;
  (** [isinstance(result, (list, dict))] *)
  is_list_or_dict : PyObj → bool;
  (** [json.dumps(result)] *)
  json_dumps : PyObj → outcome string;
  (** [str(result)] *)
  str : PyObj → outcome string
}.

(** The exception an outcome carries, if any. *)
Definition raised {A} (o : outcome A) : option exn :=
  match o with Ok _ => None | Raise e => Some e end.

(** The calls the client makes to the outside, in the order it makes them,
    each with how it ended: the exception it raised, if any, and for tool
    and model calls the full outcome. *)
Inductive event (O : Outside) : Type :=
| EvEnter (c : context_manager (Streams O)) (raised : option exn)
| EvExit (c : context_manager (Streams O)) (raised : option exn)
| EvInitialize (s : Session O) (raised : option exn)
| EvListTools (s : Session O) (raised : option exn)
| EvCallTool (s : Session O) (name : string) (args : gmap string json)
    (result : outcome (PyObj O))
| EvGenerate (tools : list genai.Tool) (contents : list json)
    (response : outcome genai.Response).
Arguments EvEnter {O} c raised.
Arguments EvExit {O} c raised.
Arguments EvInitialize {O} s raised.
Arguments EvListTools {O} s raised.
Arguments EvCallTool {O} s name args result.
Arguments EvGenerate {O} tools contents response.

(** * [MCPClient] (client_sse.py, lines 21-182) *)

(** The attributes of the client object.  [function_declarations] is not
    set by [__init__]; the attribute exists once [connect_to_sse_server]
    has completed. *)
Record MCPClient (O : Outside) : Type := {
  session : option (Session O);
  _streams_context : option (context_manager (Streams O));
  _session_context : option (context_manager (Streams O));
  function_declarations : option (list genai.Tool)
}.
Arguments session {O} _.
Arguments _streams_context {O} _.
Arguments _session_context {O} _.
Arguments function_declarations {O} _.

Record state (O : Outside) : Type := {
  world : World O;
  log : list (event O);
  self : MCPClient O
}.
Arguments world {O} _.
Arguments log {O} _.
Arguments self {O} _.

Section client.
Context {O : Outside}.

(** The attributes as [MCPClient.__init__] sets them. *)
Definition MCPClient_new : MCPClient O :=
  {| session := None; _streams_context := None;
     _session_context := None; function_declarations := None |}.

(** [MCPClient.__init__] (lines 22-40): [gemini_api_key] is
    [os.getenv("GEMINI_API_KEY")]; [not gemini_api_key] holds for [None]
    and for the empty string. *)
Definition MCPClient_init (gemini_api_key : option string)
  : outcome (MCPClient O) :=
  match gemini_api_key with
  | None | Some "" =>
      Raise (Exn true "GEMINI_API_KEY environment variable is not set")
  | Some _ => Ok MCPClient_new
  end.

(** Make one call to the outside: the call is logged, the oracle gives
    the new state of the world and the result. *)
Definition perform {A} (ev : outcome A → event O)
    (oracle : World O → World O * outcome A) : M (state O) A :=
  λ σ,
    let '(w, r) := oracle (world σ) in
    ({| world := w; log := log σ ++ [ev r]; self := self σ |}, r).

Definition get_self : M (state O) (MCPClient O) := λ σ, (σ, Ok (self σ)).

Definition set_self (f : MCPClient O → MCPClient O) : M (state O) unit :=
  λ σ, ({| world := world σ; log := log σ; self := f (self σ) |}, Ok tt).

Definition set_streams_context c (self : MCPClient O) : MCPClient O :=
  {| session := session self; _streams_context := Some c;
     _session_context := _session_context self;
     function_declarations := function_declarations self |}.

Definition set_session_context c (self : MCPClient O) : MCPClient O :=
  {| session := session self; _streams_context := _streams_context self;
     _session_context := Some c;
     function_declarations := function_declarations self |}.

Definition set_session s (self : MCPClient O) : MCPClient O :=
  {| session := Some s; _streams_context := _streams_context self;
     _session_context := _session_context self;
     function_declarations := function_declarations self |}.

Definition set_function_declarations decls (self : MCPClient O) : MCPClient O :=
  {| session := session self; _streams_context := _streams_context self;
     _session_context := _session_context self;
     function_declarations := Some decls |}.

(** [ctx.__aenter__()] and [ctx.__aexit__(None, None, None)] *)
Definition aenter_streams (url : string) : M (state O) (Streams O) :=
  perform (λ r, EvEnter (sse_client url) (raised r)) (aenter_sse_client O url).

Definition aenter_session (streams : Streams O) : M (state O) (Session O) :=
  perform (λ r, EvEnter (ClientSession streams) (raised r))
          (aenter_ClientSession O streams).

Definition aexit_context (c : context_manager (Streams O)) : M (state O) unit :=
  perform (λ r, EvExit c (raised r)) (aexit O c).

Definition session_do_initialize (s : Session O) : M (state O) unit :=
  perform (λ r, EvInitialize s (raised r)) (session_initialize O s).

Definition session_do_list_tools (s : Session O) : M (state O) (list mcp.Tool) :=
  perform (λ r, EvListTools s (raised r)) (session_list_tools O s).

(** ** [connect_to_sse_server] (lines 43-72) *)
Definition connect_to_sse_server (server_url : string) : M (state O) unit :=
  set_self (set_streams_context (sse_client server_url));;
  streams ← aenter_streams server_url;
  set_self (set_session_context (ClientSession streams));;
  session ← aenter_session streams;
  set_self (set_session session);;
  session_do_initialize session;;
  tools ← session_do_list_tools session;
  decls ← lift (convert_mcp_tools_to_gemini (library O) tools);
  set_self (set_function_declarations decls).

(** ** [cleanup] (lines 75-85) *)
Definition cleanup : M (state O) unit :=
  self ← get_self;
  match _session_context self with
  | Some c => aexit_context c
  | None => mret tt
  end;;
  self ← get_self;
  match _streams_context self with
  | Some c => aexit_context c
  | None => mret tt
  end.

(** Exiting the contexts [cs] one after the other, starting in the world
    [w], up to the first [__aexit__] that raises: the world reached, the
    events, and the outcome.  This is what [cleanup] is compared with. *)
Fixpoint exit_each (cs : list (context_manager (Streams O))) (w : World O)
  : World O * list (event O) * outcome unit :=
  match cs with
  | [] => (w, [], Ok tt)
  | c :: cs' =>
      match aexit O c w with
      | (w', Ok _) =>
          let '(w'', evs, r) := exit_each cs' w' in
          (w'', EvExit c None :: evs, r)
      | (w', Raise e) => (w', [EvExit c (Some e)], Raise e)
      end
  end.

(** ** [process_query] (lines 90-163) *)

(** [{"role": "user", "parts": [{"text": query}]}] *)
Definition user_prompt_content (query : string) : json :=
  JObj {[ "role" := JStr "user";
          "parts" := JArr [JObj {[ "text" := JStr query ]}] ]}.

(** [{"role": "function", "parts": [{"function_response":
      {"name": tool_name, "response": {"content": function_response}}}]}] *)
Definition function_response_content (tool_name function_response : string)
  : json :=
  JObj {[ "role" := JStr "function";
          "parts" :=
            JArr [JObj {[ "function_response" :=
              JObj {[ "name" := JStr tool_name;
                      "response" :=
                        JObj {[ "content" := JStr function_response ]} ]} ]}] ]}.

(** [{"role": "model", "parts": [{"function_call":
      {"name": tool_name, "args": tool_args}}]}] *)
Definition function_call_content (tool_name : string)
    (tool_args : gmap string json) : json :=
  JObj {[ "role" := JStr "model";
          "parts" :=
            JArr [JObj {[ "function_call" :=
              JObj {[ "name" := JStr tool_name;
                      "args" := JObj tool_args ]} ]}] ]}.

(** [self.function_declarations], read when the model object is built. *)
Definition read_function_declarations : M (state O) (list genai.Tool) :=
  self ← get_self;
  match function_declarations self with
  | Some decls => mret decls
  | None =>
      raise (AttributeError
               "'MCPClient' object has no attribute 'function_declarations'")
  end.

Definition generate_content (tools : list genai.Tool) (contents : list json)
  : M (state O) genai.Response :=
  perform (EvGenerate tools contents) (model_generate_content O tools contents).

(** [await self.session.call_tool(tool_name, tool_args)] *)
Definition call_tool (tool_name : string) (tool_args : gmap string json)
  : M (state O) (PyObj O) :=
  self ← get_self;
  match session self with
  | Some s =>
      perform (EvCallTool s tool_name tool_args)
              (session_call_tool O s tool_name tool_args)
  | None =>
      raise (AttributeError "'NoneType' object has no attribute 'call_tool'")
  end.

(** Lines 115-125: the call and the conversion of its result to text. *)
Definition tool_response_text (tool_name : string)
    (tool_args : gmap string json) : M (state O) string :=
  try_except
    (result ← call_tool tool_name tool_args;
     if is_list_or_dict O result
     then lift (json_dumps O result)
     else lift (str O result))
    (λ e, mret ("Tool error: " +:+ exn_str e)).

(** [response.candidates[0].content.parts[0].text] appended under the guard
    [response.candidates and response.candidates[0].content.parts]. *)
Definition append_leading_text (response : genai.Response)
    (final_text : list string) : list string :=
  match genai.candidates response with
  | candidate0 :: _ =>
      match genai.parts (genai.content candidate0) with
      | part0 :: _ => final_text ++ [genai.text part0]
      | [] => final_text
      end
  | [] => final_text
  end.

(** Lines 105-161: the body of the loop over parts. *)
Definition process_part (tools : list genai.Tool) (user_content : json)
    (part : genai.Part) (final_text : list string)
  : M (state O) (list string) :=
  match genai.function_call part with
  | Some fc =>
      let tool_name := genai.fc_name fc in
      (* try: dict(part.function_call.args)  except Exception: {} *)
      let tool_args := default ∅ (genai.fc_args fc) in
      function_response ← tool_response_text tool_name tool_args;
      response ← generate_content tools
        [user_content;
         function_call_content tool_name tool_args;
         function_response_content tool_name function_response];
      mret (append_leading_text response final_text)
  | None => mret (final_text ++ [genai.text part])
  end.

(** The loops iterate over the candidates and parts of the response of the
    first call: rebinding [response] inside the loop does not change the
    lists being iterated.  The guard [if candidate.content.parts] only
    skips a loop over no part. *)
Definition process_query (query : string) : M (state O) string :=
  let user_content := user_prompt_content query in
  tools ← read_function_declarations;
  response ← generate_content tools [user_content];
  final_text ←
    for_each
      (λ candidate final_text,
         for_each (process_part tools user_content)
                  (genai.parts (genai.content candidate)) final_text)
      (genai.candidates response) [];
  mret (String.concat newline final_text).

(** ** Reading the log *)

(** The [(name, args)] of the tool calls made, in order. *)
Definition tool_calls (evs : list (event O))
  : list (string * gmap string json) :=
  omap (λ ev, match ev with
              | EvCallTool _ name args _ => Some (name, args)
              | _ => None
              end) evs.

(** The [contents] of the requests made to the model, in order. *)
Definition generate_requests (evs : list (event O)) : list (list json) :=
  omap (λ ev, match ev with
              | EvGenerate _ contents _ => Some contents
              | _ => None
              end) evs.

(** The context managers exited, in order. *)
Definition exits (evs : list (event O))
  : list (context_manager (Streams O)) :=
  omap (λ ev, match ev with EvExit c _ => Some c | _ => None end) evs.

(** The parts of a response, over all candidates, in the order the two
    loops of [process_query] meet them. *)
Definition all_parts (response : genai.Response) : list genai.Part :=
  candidate ← genai.candidates response;
  genai.parts (genai.content candidate).

(** The call a part asks for, with the arguments as the client decodes
    them. *)
Definition requested_call (part : genai.Part)
  : option (string * gmap string json) :=
  fc ← genai.function_call part;
  Some (genai.fc_name fc, default ∅ (genai.fc_args fc)).

(** The function calls a response asks for: one per function-call part. *)
Definition requested_calls (response : genai.Response)
  : list (string * gmap string json) :=
  omap requested_call (all_parts response).

(** The follow-up request for the call [name(args)] answered by [text]:
    the user's query, the model's call, the tool's response. *)
Definition follow_up (query name : string) (args : gmap string json)
    (text : string) : list json :=
  [user_prompt_content query;
   function_call_content name args;
   function_response_content name text].

(** Of the requested [calls], those that reach the session: all of them
    when the client has a session, none otherwise. *)
Definition dispatched (σ : state O)
    (calls : list (string * gmap string json))
  : list (string * gmap string json) :=
  match session (self σ) with Some _ => calls | None => [] end.

(** What lines 115-125 make of the outcome of the tool call: the text of
    the result, or the text of the error caught. *)
Definition caught (o : outcome string) : outcome string :=
  match o with
  | Ok text => Ok text
  | Raise e =>
      if exn_is_Exception e then Ok ("Tool error: " +:+ exn_str e)
      else Raise e
  end.

Definition result_text (r : outcome (PyObj O)) : outcome string :=
  caught (result ← r;
          if is_list_or_dict O result then json_dumps O result
          else str O result).

(** In [evs], every tool call that raised an [Exception] is followed at
    once by the follow-up request that gives the model the error text as
    the response of that call. *)
Definition errors_answered (query : string) (evs : list (event O)) : Prop :=
  ∀ i s name args e,
    evs !! i = Some (EvCallTool s name args (Raise e)) →
    exn_is_Exception e = true →
    ∃ tools response,
      evs !! S i
        = Some (EvGenerate tools
                  (follow_up query name args ("Tool error: " +:+ exn_str e))
                  response).

(** The exception [e] that ends a run with events [evs] was raised by a
    request to the model, the last thing the run did. *)
Definition raised_by_model (evs : list (event O)) (e : exn) : Prop :=
  ∃ tools contents, last evs = Some (EvGenerate tools contents (Raise e)).

(** The answers the model gave, in order. *)
Definition answers (evs : list (event O)) : list genai.Response :=
  omap (λ ev, match ev with
              | EvGenerate _ _ (Ok response) => Some response
              | _ => None
              end) evs.

(** The texts [process_query] collects from the parts of the original
    response, given the answers to the follow-up requests: the text of a
    text part; for a function-call part, the leading text of the answer
    to its follow-up request, if that answer has one. *)
Fixpoint answer_texts (parts : list genai.Part)
    (follow_ups : list genai.Response) : list string :=
  match parts with
  | [] => []
  | part :: parts' =>
      match genai.function_call part with
      | None => genai.text part :: answer_texts parts' follow_ups
      | Some _ =>
          match follow_ups with
          | answer :: follow_ups' =>
              append_leading_text answer [] ++ answer_texts parts' follow_ups'
          | [] => []
          end
      end
  end.

(** The events an action adds to the log. *)
Definition new_events {A} (c : M (state O) A) (σ : state O)
  : list (event O) :=
  drop (length (log σ)) (log (c σ).1).

End client.

(** * The tool servers (main.py, server_sse.py) *)

(** [subprocess.CompletedProcess], with [capture_output=True, text=True]. *)
Record CompletedProcess : Type := {
  stdout : string;
  stderr : string;
  returncode : Z
}.

(** What the servers call outside their own code. *)
Record ServerOutside : Type := {
  ServerWorld : Type;
  (** [tavily_client.search(query)]: the response dict *)
  tavily_search :
    string → ServerWorld → ServerWorld * outcome (gmap string json);
  (** the operating system running [command] through the shell in
      directory [cwd], output captured as text *)
  os_shell :
    string → string → ServerWorld → ServerWorld * outcome CompletedProcess
}.

Inductive server_event : Type :=
| EvSearch (query : string)
| EvShell (command cwd : string).

Record server_state (O : ServerOutside) : Type := {
  server_world : ServerWorld O;
  server_log : list server_event
}.
Arguments server_world {O} _.
Arguments server_log {O} _.

Definition server_perform {O : ServerOutside} {A} (ev : server_event)
    (oracle : ServerWorld O → ServerWorld O * outcome A)
  : M (server_state O) A :=
  λ σ,
    let '(w, r) := oracle (server_world σ) in
    ({| server_world := w; server_log := server_log σ ++ [ev] |}, r).

(** [response[key]] on a dict *)
Definition getitem {Σ} (response : gmap string json) (key : string)
  : M Σ json :=
  match response !! key with
  | Some v => mret v
  | None => raise (KeyError key)
  end.

(** [subprocess.run( *popenargs, shell=..., cwd=..., capture_output=True,
    text=True)].  The command is the first positional argument, which
    [Popen.__init__] requires; nothing is run without it. *)
Definition subprocess_run {O : ServerOutside} (popenargs : list string)
    (shell : bool) (cwd : string) (capture_output text : bool)
  : M (server_state O) CompletedProcess :=
  match popenargs with
  | [] =>
      raise (TypeError
               "Popen.__init__() missing 1 required positional argument: 'args'")
  | args :: _ => server_perform (EvShell args cwd) (os_shell O args cwd)
  end.

(** [a or b] on strings *)
Definition str_or (a b : string) : string :=
  if decide (a = "") then b else a.

Module main.

Definition DEFAULT_WORKSPACE : string :=
  "D:/OFFICE PENTA/New folder/mcp-sse/mcp_workspace".

(** main.py, lines 22-45.  The call to [subprocess.run] passes the
    keyword arguments only: [command] is not among them. *)
Definition run_command {O : ServerOutside} (command : string)
  : M (server_state O) string :=
  try_except
    (result ← subprocess_run [] true DEFAULT_WORKSPACE true true;
     mret (str_or (stdout result) (stderr result)))
    (λ e, mret (exn_str e)).

(** What the docstring of [run_command] describes ("Executes a shell
    command in the default workspace and returns the result"): the same
    code with [command] handed to [subprocess.run].  Not the code; kept
    for comparison. *)
Definition run_command_as_documented {O : ServerOutside} (command : string)
  : M (server_state O) string :=
  try_except
    (result ← subprocess_run [command] true DEFAULT_WORKSPACE true true;
     mret (str_or (stdout result) (stderr result)))
    (λ e, mret (exn_str e)).

(** main.py, lines 51-65 *)
Definition web_search {O : ServerOutside} (query : string)
  : M (server_state O) json :=
  try_except
    (response ← server_perform (EvSearch query) (tavily_search O query);
     getitem response "results")
    (λ e, mret (JObj {[ "error" := JStr (exn_str e) ]})).

End main.

Module server_sse.

(** server_sse.py, lines 23-30 *)
Definition web_search {O : ServerOutside} (query : string)
  : M (server_state O) json :=
  try_except
    (response ← server_perform (EvSearch query) (tavily_search O query);
     getitem response "results")
    (λ e, mret (JObj {[ "error" := JStr (exn_str e) ]})).

End server_sse.

(** [isinstance(x, list)] *)
Definition is_list (j : json) : bool :=
  match j with JArr _ => true | _ => false end.

(** * Sample worlds *)

(** A tool descriptor list as a server would send it. *)
Definition add_integers_tool : mcp.Tool :=
  {| mcp.name := "add_integers";
     mcp.description := Some "Add two positive integers";
     mcp.inputSchema :=
       JObj {[ "type" := JStr "object"; "title" := JStr "add_integersArguments";
               "properties" :=
                 JObj {[ "num1" := JObj {[ "type" := JStr "integer";
                                           "title" := JStr "Num1" ]};
                         "num2" := JObj {[ "type" := JStr "integer";
                                           "title" := JStr "Num2" ]} ]} ]} |}.

Definition web_search_tool : mcp.Tool :=
  {| mcp.name := "web_search";
     mcp.description := Some "Search the web using Tavily";
     mcp.inputSchema := schema_loc |}.

(** The descriptor of [get_weather] as its server sends it: the
    parameters [days] and [aqi] have default values. *)
Definition get_weather_tool : mcp.Tool :=
  {| mcp.name := "get_weather";
     mcp.description := Some "Fetch weather data for a given location";
     mcp.inputSchema :=
       JObj {[ "type" := JStr "object"; "title" := JStr "get_weatherArguments";
               "properties" :=
                 JObj {[ "location" := JObj {[ "type" := JStr "string";
                                               "title" := JStr "Location" ]};
                         "days" := JObj {[ "type" := JStr "integer";
                                           "title" := JStr "Days";
                                           "default" := JInt 1 ]};
                         "aqi" := JObj {[ "type" := JStr "boolean";
                                          "title" := JStr "Aqi";
                                          "default" := JBool false ]} ]};
               "required" := JArr [JStr "location"] ]} |}.

(** The keys a sample library knows in a schema. *)
Definition known_schema_keys : list string :=
  ["type"; "format"; "description"; "nullable"; "enum"; "items";
   "properties"; "required"].

(** A key of [schema], or of a parameter's schema below it, that is not
    among the known ones. *)
Fixpoint unknown_schema_key (fuel : nat) (schema : json) : option string :=
  match fuel, schema with
  | S fuel', JObj d =>
      match filter (λ k, k ∉ known_schema_keys) (elements (dom d)) with
      | k :: _ => Some k
      | [] =>
          match d !! "properties" with
          | Some (JObj props) =>
              head (omap (λ kv, unknown_schema_key fuel' kv.2)
                      (map_to_list props))
          | _ => None
          end
      end
  | _, _ => None
  end.

(** A library whose [FunctionDeclaration] raises a [ValueError] on a schema
    with a key it does not know, and accepts everything else. *)
Definition sample_library : GeminiLibrary :=
  {| FunctionDeclaration_raises := λ _ _ parameters,
       match unknown_schema_key (json_depth parameters) parameters with
       | Some k => Some (Exn true ("Unknown field for Schema: " +:+ k))
       | None => None
       end;
     Tool_raises := λ _, None |}.

(** The model asks for [add_integers(num1=2, num2=3)]. *)
Definition add_call_part : genai.Part :=
  {| genai.function_call :=
       Some {| genai.fc_name := "add_integers";
               genai.fc_args := Some {[ "num1" := JInt 2; "num2" := JInt 3 ]} |};
     genai.text := "" |}.

Definition response_of_parts (ps : list genai.Part) : genai.Response :=
  {| genai.candidates := [ {| genai.content := {| genai.parts := ps |} |} ] |}.

Definition empty_response : genai.Response := {| genai.candidates := [] |}.

(** A world in which the session is broken: every tool call raises, and
    closing the session context raises as well.  The model asks for one tool
    call on the first request and answers the follow-up request with no
    candidate at all. *)
Definition broken_session_world : Outside :=
  {| World := unit;
     Streams := unit;
     Session := unit;
     PyObj := string;
     aenter_sse_client := λ _ w, (w, Ok tt);
     aenter_ClientSession := λ _ w, (w, Ok tt);
     aexit := λ c w,
       match c with
       | sse_client _ => (w, Ok tt)
       | ClientSession _ => (w, Raise (Exn true "session is already closed"))
       end;
     session_initialize := λ _ w, (w, Ok tt);
     session_list_tools := λ _ w, (w, Ok [add_integers_tool]);
     session_call_tool := λ _ _ _ w, (w, Raise (Exn true "connection lost"));
     model_generate_content := λ _ contents w,
       match contents with
       | [_] => (w, Ok (response_of_parts [add_call_part]))
       | _ => (w, Ok empty_response)
       end;
     library := sample_library;
     is_list_or_dict := λ _, false;
     json_dumps := λ s, Ok s;
     str := λ s, Ok s |}.

(** A world in which everything works: the tool returns ["5"], the model
    asks for one tool call and then answers in text. *)
Definition working_world : Outside :=
  {| World := unit;
     Streams := unit;
     Session := unit;
     PyObj := string;
     aenter_sse_client := λ _ w, (w, Ok tt);
     aenter_ClientSession := λ _ w, (w, Ok tt);
     aexit := λ _ w, (w, Ok tt);
     session_initialize := λ _ w, (w, Ok tt);
     session_list_tools := λ _ w, (w, Ok [add_integers_tool]);
     session_call_tool := λ _ _ _ w, (w, Ok "5");
     model_generate_content := λ _ contents w,
       match contents with
       | [_] => (w, Ok (response_of_parts [add_call_part]))
       | _ => (w, Ok (response_of_parts
                        [ {| genai.function_call := None;
                             genai.text := "2 + 3 = 5" |} ]))
       end;
     library := sample_library;
     is_list_or_dict := λ _, false;
     json_dumps := λ s, Ok s;
     str := λ s, Ok s |}.


(** The state of a process right after [MCPClient()]. *)
Definition fresh_state (O : Outside) (w : World O) : state O :=
  {| world := w; log := []; self := MCPClient_new |}.

(** The broken-session world once the client has connected. *)
Definition broken_session_connected : state broken_session_world :=
  (connect_to_sse_server "http://localhost:8081/sse"
     (fresh_state broken_session_world tt)).1.

Definition working_connected : state working_world :=
  (connect_to_sse_server "http://localhost:8081/sse"
     (fresh_state working_world tt)).1.

(** A server world: the search API is down, and the shell would print
    [hello] for any command. *)
Definition search_down_world : ServerOutside :=
  {| ServerWorld := unit;
     tavily_search := λ _ w, (w, Raise (Exn true "401 Unauthorized"));
     os_shell := λ _ _ w,
       (w, Ok {| stdout := "hello"; stderr := ""; returncode := 0 |}) |}.

Definition server_start (O : ServerOutside) (w : ServerWorld O) : server_state O :=
  {| server_world := w; server_log := [] |}.

(** * More about [process_query]: the shape of the conversation *)

Section conversation.
Context {O : Outside}.

(** The events of handling one part of the original response, for a client
    with session [sess]: nothing for a text part; for a function-call part,
    the tool call (when there is a session to call) and then the follow-up
    request that carries the text made of its outcome, or the tool call
    alone when making that text raised. *)
Definition part_events (tools : list genai.Tool) (query : string)
    (sess : option (Session O)) (part : genai.Part)
    (evs : list (event O)) : Prop :=
  match requested_call part with
  | None => evs = []
  | Some (name, args) =>
      match sess with
      | None =>
          ∃ response,
            evs = [EvGenerate tools
                     (follow_up query name args
                        "Tool error: 'NoneType' object has no attribute 'call_tool'")
                     response]
      | Some s =>
          ∃ r,
            match result_text r with
            | Ok text =>
                ∃ response,
                  evs = [EvCallTool s name args r;
                         EvGenerate tools (follow_up query name args text)
                           response]
            | Raise _ => evs = [EvCallTool s name args r]
            end
      end
  end.

(** In [evs], every tool call is followed at once by the follow-up request
    that carries the text made of the call's outcome. *)
Definition calls_answered (query : string) (evs : list (event O)) : Prop :=
  ∀ i s name args r text,
    evs !! i = Some (EvCallTool s name args r) →
    result_text r = Ok text →
    ∃ tools response,
      evs !! S i
        = Some (EvGenerate tools (follow_up query name args text) response).

(** The event is a request to the model or a tool call. *)
Definition is_conversation_event (ev : event O) : bool :=
  match ev with
  | EvCallTool _ _ _ _ | EvGenerate _ _ _ => true
  | _ => false
  end.

End conversation.

(** * The Interactive Shell and the entry point
      (client_sse.py, lines 166-182 and 242-273) *)

(** [try: body  finally: final]: [final] runs whatever [body] did; an
    exception of [final] replaces the outcome of [body]. *)
Definition try_finally {Σ A} (body : M Σ A) (final : M Σ unit) : M Σ A :=
  λ σ,
    match body σ with
    | (σ1, r) =>
        match final σ1 with
        | (σ2, Ok _) => (σ2, r)
        | (σ2, Raise e) => (σ2, Raise e)
        end
    end.

(** [str.strip()] and [str.lower()].  What they compute is Python's (all of
    Unicode); the shell is modelled for whatever they compute. *)
Record StrOps : Type := {
  str_strip : string → string;
  str_lower : string → string
}.

(** The process at the console: the client and its outside, and what
    [chat_loop] and [main] have written to the terminal so far, one entry
    for each [print] and each prompt of [input], in order.  (The progress
    lines of [connect_to_sse_server] are not part of its model above and
    are not recorded.) *)
Record console (O : Outside) : Type := {
  client : state O;
  shown : list string
}.
Arguments client {O} _.
Arguments shown {O} _.

(** [EOFError], raised by [input()] at the end of the input. *)
Definition EOFError : exn := Exn true "EOF when reading a line".

(** [SystemExit(code)], raised by [sys.exit(code)]: not an [Exception]. *)
Definition SystemExit (code : string) : exn := Exn false code.

Definition banner : string :=
  newline +:+ "MCP Client Started! Type 'exit' to quit." +:+ newline.
Definition prompt : string := newline +:+ "Enter your query: ".
Definition exit_notice : string := "Exiting chat loop.".
Definition response_line (response : string) : string :=
  newline +:+ "Response: " +:+ response +:+ newline.
Definition usage : string := "Usage: python client_sse.py <server_url>".

Section shell.
Context {O : Outside} (S : StrOps).

(** Run an action of the client in the process. *)
Definition on_client {A} (c : M (state O) A) : M (console O) A :=
  λ κ,
    let '(σ, r) := c (client κ) in
    ({| client := σ; shown := shown κ |}, r).

(** [print(text)] *)
Definition show (text : string) : M (console O) unit :=
  λ κ, ({| client := client κ; shown := shown κ ++ [text] |}, Ok tt).

(** The line is the exit sentinel: [query.lower() == 'exit'] for
    [query = line.strip()]. *)
Definition is_exit (line : string) : Prop :=
  str_lower S (str_strip S line) = "exit".

(** The [while True] of [chat_loop] (lines 175-182).  [stdin] holds the
    lines the operator will type, one per [input()]; the loop returns the
    lines it has not read.  Each turn reads one line, so the recursion is
    on [stdin]. *)
Fixpoint chat_turns (stdin : list string) : M (console O) (list string) :=
  show prompt;;
  match stdin with
  | [] => raise EOFError
  | line :: stdin' =>
      let query := str_strip S line in
      if decide (str_lower S query = "exit") then
        show exit_notice;;
        mret stdin'
      else
        response ← on_client (process_query query);
        show (response_line response);;
        chat_turns stdin'
  end.

(** [chat_loop] (lines 166-182) *)
Definition chat_loop (stdin : list string) : M (console O) (list string) :=
  show banner;;
  chat_turns stdin.

(** [client = MCPClient()] *)
Definition construct_client (gemini_api_key : option string)
  : M (state O) unit :=
  new ← lift (MCPClient_init gemini_api_key);
  set_self (λ _, new).

(** [main] (lines 242-273): [argv] is [sys.argv], [gemini_api_key] what
    [os.getenv("GEMINI_API_KEY")] gives. *)
Definition main (argv : list string) (gemini_api_key : option string)
    (stdin : list string) : M (console O) unit :=
  match argv with
  | _ :: server_url :: _ =>
      on_client (construct_client gemini_api_key);;
      try_finally
        (on_client (connect_to_sse_server server_url);;
         chat_loop stdin;;
         mret tt)
        (on_client cleanup)
  | _ =>
      show usage;;
      raise (SystemExit "1")
  end.



(** The events an action of the process adds to the log. *)
Definition console_events {A} (c : M (console O) A) (κ : console O)
  : list (event O) :=
  drop (length (log (client κ))) (log (client (c κ).1)).

End shell.

(** ** Sample input handling *)

(** [str.isspace()] on an ASCII character. *)
Definition ascii_is_space (a : Ascii.ascii) : bool :=
  let n := Ascii.nat_of_ascii a in
  bool_decide (9 ≤ n ≤ 13 ∨ 28 ≤ n ≤ 32).

Fixpoint ascii_lstrip (s : string) : string :=
  match s with
  | String a s' => if ascii_is_space a then ascii_lstrip s' else s
  | EmptyString => EmptyString
  end.

Definition ascii_lower_char (a : Ascii.ascii) : Ascii.ascii :=
  let n := Ascii.nat_of_ascii a in
  if bool_decide (65 ≤ n ≤ 90) then Ascii.ascii_of_nat (n + 32) else a.

Fixpoint ascii_lower (s : string) : string :=
  match s with
  | String a s' => String (ascii_lower_char a) (ascii_lower s')
  | EmptyString => EmptyString
  end.

(** [strip] and [lower] as they act on ASCII text. *)
Definition ascii_ops : StrOps :=
  {| str_strip := λ s, String.rev (ascii_lstrip (String.rev (ascii_lstrip s)));
     str_lower := ascii_lower |}.

Definition at_console {O : Outside} (σ : state O) : console O :=
  {| client := σ; shown := [] |}.

(** A world in which the model answers in text at once, in two parts. *)
Definition greeting_parts : list genai.Part :=
  [ {| genai.function_call := None; genai.text := "Hello!" |};
    {| genai.function_call := None; genai.text := "How can I help?" |} ].

Definition talkative_world : Outside :=
  {| World := unit;
     Streams := unit;
     Session := unit;
     PyObj := string;
     aenter_sse_client := λ _ w, (w, Ok tt);
     aenter_ClientSession := λ _ w, (w, Ok tt);
     aexit := λ _ w, (w, Ok tt);
     session_initialize := λ _ w, (w, Ok tt);
     session_list_tools := λ _ w, (w, Ok [add_integers_tool]);
     session_call_tool := λ _ _ _ w, (w, Ok "5");
     model_generate_content := λ _ _ w, (w, Ok (response_of_parts greeting_parts));
     library := sample_library;
     is_list_or_dict := λ _, false;
     json_dumps := λ s, Ok s;
     str := λ s, Ok s |}.

Definition talkative_connected : state talkative_world :=
  (connect_to_sse_server "http://localhost:8081/sse"
     (fresh_state talkative_world tt)).1.

(** * The tools [add_integers] and [get_weather] (main.py, lines 36-84)

    A note on file names: in the sources, [get_weather], [add_integers]
    and the [web_search] of lines 23-30 are defined in main.py, and
    [run_command] and the [web_search] of lines 51-65 in server_sse.py; the
    names of the modules [main] and [server_sse] above do not follow
    this. *)

(** [get_weather] has three [except] clauses that tell exceptions apart by
    class, so here an exception carries its classes (the names of the
    classes of its type, base classes included) besides its text. *)
Record pyexc : Type := { exc_classes : list string; exc_text : string }.

(** [isinstance(e, cls)] *)
Definition isinstance (e : pyexc) (cls : string) : bool :=
  bool_decide (cls ∈ exc_classes e).

Definition ValueError_ (msg : string) : pyexc :=
  {| exc_classes := ["ValueError"; "Exception"; "BaseException"];
     exc_text := msg |}.
Definition KeyError_ (key : string) : pyexc :=
  {| exc_classes := ["KeyError"; "LookupError"; "Exception"; "BaseException"];
     exc_text := "'" +:+ key +:+ "'" |}.
Definition TypeError_ (msg : string) : pyexc :=
  {| exc_classes := ["TypeError"; "Exception"; "BaseException"];
     exc_text := msg |}.
Definition AttributeError_ (msg : string) : pyexc :=
  {| exc_classes := ["AttributeError"; "Exception"; "BaseException"];
     exc_text := msg |}.

Inductive result (A : Type) : Type :=
| Returned (a : A)
| Raised (e : pyexc).
Arguments Returned {A} a.
Arguments Raised {A} e.

Global Instance result_ret : MRet result := λ A a, Returned a.
Global Instance result_bind : MBind result := λ A B k r,
  match r with
  | Returned a => k a
  | Raised e => Raised e
  end.

(** Code with effects that raises classed exceptions. *)
Definition W (Σ A : Type) : Type := Σ → Σ * result A.

Global Instance W_ret {Σ} : MRet (W Σ) := λ A a σ, (σ, Returned a).
Global Instance W_bind {Σ} : MBind (W Σ) := λ A B k c σ,
  match c σ with
  | (σ', Returned a) => k a σ'
  | (σ', Raised e) => (σ', Raised e)
  end.

Definition throw {Σ A} (e : pyexc) : W Σ A := λ σ, (σ, Raised e).
Definition pure_result {Σ A} (r : result A) : W Σ A := λ σ, (σ, r).

(** The [except] clauses of a [try], tried in order: the first whose class
    the exception is an instance of handles it; with none, the exception
    goes on. *)
Fixpoint handle {Σ A} (clauses : list (string * (pyexc → W Σ A)))
    (e : pyexc) : W Σ A :=
  match clauses with
  | [] => throw e
  | (cls, handler) :: clauses' =>
      if isinstance e cls then handler e else handle clauses' e
  end.

Definition try_except_clauses {Σ A} (body : W Σ A)
    (clauses : list (string * (pyexc → W Σ A))) : W Σ A :=
  λ σ,
    match body σ with
    | (σ', Returned a) => (σ', Returned a)
    | (σ', Raised e) => handle clauses e σ'
    end.

(** ** Python's operations on a JSON value of unknown shape *)

(** [type(x).__name__] *)
Definition type_name (x : json) : string :=
  match x with
  | JNull => "NoneType"
  | JBool _ => "bool"
  | JInt _ => "int"
  | JFloat _ _ => "float"
  | JStr _ => "str"
  | JArr _ => "list"
  | JObj _ => "dict"
  end.

(** [sub in s] on strings *)
Definition is_substring (sub s : string) : bool :=
  match String.index 0 sub s with Some _ => true | None => false end.

(** What the weather server takes from outside its own code. *)
Record WeatherOutside : Type := {
  WeatherWorld : Type;
  (** [requests.get(url, params=params, timeout=timeout)]: the response,
      given by what its [raise_for_status()] and its [json()] do *)
  requests_get :
    string → gmap string json → Z → WeatherWorld →
    WeatherWorld * result (result unit * result json);
  (** [os.environ.get("WEATHERAPI_KEY")] at the time of the call *)
  WEATHERAPI_KEY : option string;
  (** [str.strip()] *)
  py_strip : string → string;
  (** [str(x)] of a value that is not a string *)
  py_repr : json → string;
  (** the text of the [TypeError] of [key in x] on an [x] that is no
      container, and of [x[key]] on an [x] that is no dict; both depend on
      the interpreter version *)
  contains_error_text : json → string;
  subscript_error_text : json → string
}.

Inductive weather_event : Type :=
| EvGet (url : string) (params : gmap string json) (timeout : Z).

Record weather_state (O : WeatherOutside) : Type := {
  weather_world : WeatherWorld O;
  weather_log : list weather_event
}.
Arguments weather_world {O} _.
Arguments weather_log {O} _.

(** [requests.get(url, params=params, timeout=timeout)], with its trace in
    the log. *)
Definition http_get {O : WeatherOutside} (url : string)
    (params : gmap string json) (timeout : Z)
  : W (weather_state O) (result unit * result json) :=
  λ σ,
    let '(w, r) := requests_get O url params timeout (weather_world σ) in
    ({| weather_world := w;
        weather_log := weather_log σ ++ [EvGet url params timeout] |}, r).

Section python_json.
Context {O : WeatherOutside}.

(** [str(x)], also what an f-string makes of [x] *)
Definition text_of (x : json) : string :=
  match x with
  | JStr s => s
  | _ => py_repr O x
  end.

(** [key in x] for a string [key] *)
Definition py_contains (key : string) (x : json) : result bool :=
  match x with
  | JObj d => Returned (bool_decide (is_Some (d !! key)))
  | JArr items =>
      Returned (existsb (λ v, match v with
                              | JStr s => bool_decide (s = key)
                              | _ => false
                              end) items)
  | JStr s => Returned (is_substring key s)
  | _ => Raised (TypeError_ (contains_error_text O x))
  end.

(** [x[key]] for a string [key] *)
Definition py_getitem (x : json) (key : string) : result json :=
  match x with
  | JObj d =>
      match d !! key with
      | Some v => Returned v
      | None => Raised (KeyError_ key)
      end
  | _ => Raised (TypeError_ (subscript_error_text O x))
  end.

(** [x.get(key, fallback)] *)
Definition py_get (x : json) (key : string) (fallback : json) : result json :=
  match x with
  | JObj d => Returned (default fallback (d !! key))
  | _ =>
      Raised (AttributeError_
                ("'" +:+ type_name x +:+ "' object has no attribute 'get'"))
  end.

End python_json.

Module multi_tool_server.

(** main.py, lines 79-84.  Python integers are unbounded. *)
Definition add_integers (num1 num2 : Z) : json :=
  if decide (num1 < 0 ∨ num2 < 0)%Z
  then JObj {[ "error" := JStr "Both integers must be positive" ]}
  else JObj {[ "result" := JInt (num1 + num2) ]}.

(** The dict an [except] clause of [get_weather] returns. *)
Definition weather_error (error_type : string) (e : pyexc) : json :=
  JObj {[ "status" := JStr "error";
          "error_type" := JStr error_type;
          "message" := JStr (exc_text e) ]}.

(** main.py, lines 57-70: from the decoded body to the returned
    dict.  The entries of the dict are evaluated in the order written;
    [data["current"]], which the source looks up anew for each entry with
    the same result, is looked up once. *)
Definition weather_report {O : WeatherOutside} (data : json) : result json :=
  has_error ← py_contains (O:=O) "error" data;
  if (has_error : bool) then
    error ← py_getitem (O:=O) data "error";
    message ← py_get error "message" (JStr "Unknown error");
    Raised (ValueError_ (text_of (O:=O) message))
  else
    location ← py_getitem (O:=O) data "location";
    name ← py_getitem (O:=O) location "name";
    current ← py_getitem (O:=O) data "current";
    temp_c ← py_getitem (O:=O) current "temp_c";
    condition ← py_getitem (O:=O) current "condition";
    text ← py_getitem (O:=O) condition "text";
    humidity ← py_getitem (O:=O) current "humidity";
    wind_kph ← py_getitem (O:=O) current "wind_kph";
    last_updated ← py_getitem (O:=O) current "last_updated";
    Returned
      (JObj {[ "status" := JStr "success";
               "data" :=
                 JObj {[ "location" := name;
                         "temperature" := temp_c;
                         "condition" := text;
                         "humidity" := humidity;
                         "wind" := JStr (text_of (O:=O) wind_kph +:+ " km/h");
                         "last_updated" := last_updated ]} ]}).

(** [os.environ["WEATHERAPI_KEY"]] (line 47).  The module does not load
    without the key (lines 33-34); the lookup is made again at each call. *)
Definition environ_WEATHERAPI_KEY {O : WeatherOutside} : result string :=
  match WEATHERAPI_KEY O with
  | Some key => Returned key
  | None => Raised (KeyError_ "WEATHERAPI_KEY")
  end.

Definition weather_params (key location : string) (days : Z) (aqi : bool)
  : gmap string json :=
  {[ "key" := JStr key; "q" := JStr location; "days" := JInt days;
     "aqi" := JStr (if aqi then "yes" else "no") ]}.

Definition weather_url (days : Z) : string :=
  "https://api.weatherapi.com/v1/"
    +:+ (if decide (1 < days)%Z then "forecast.json" else "current.json").

(** main.py, lines 36-77.  [location] is a [str], so
    [isinstance(location, str)] holds. *)
Definition get_weather {O : WeatherOutside} (location : string) (days : Z)
    (aqi : bool) : W (weather_state O) json :=
  try_except_clauses
    ((if decide (py_strip O location = "")
      then throw (ValueError_ "Location must be a non-empty string")
      else mret tt);;
     key ← pure_result (environ_WEATHERAPI_KEY (O:=O));
     response ← http_get (weather_url days)
                  (weather_params key location days aqi) 30;
     pure_result (response.1);;
     data ← pure_result (response.2);
     pure_result (weather_report (O:=O) data))
    [("RequestException", λ e, mret (weather_error "network_error" e));
     ("ValueError", λ e, mret (weather_error "validation_error" e));
     ("Exception", λ e, mret (weather_error "unexpected_error" e))].

End multi_tool_server.

(** ** The exceptions of [get_weather], clause by clause *)

(** Whether [r] raises, it raises nothing but an [Exception] that is not
    a [RequestException]: so it is with the server's own code. *)
Definition own_error {A} (r : result A) : Prop :=
  match r with
  | Returned _ => True
  | Raised e =>
      isinstance e "Exception" = true ∧ isinstance e "RequestException" = false
  end.

(** What the [except] clauses of [get_weather] make of an exception. *)
Definition weather_handlers (e : pyexc) : result json :=
  if isinstance e "RequestException"
  then Returned (multi_tool_server.weather_error "network_error" e)
  else if isinstance e "ValueError"
  then Returned (multi_tool_server.weather_error "validation_error" e)
  else if isinstance e "Exception"
  then Returned (multi_tool_server.weather_error "unexpected_error" e)
  else Raised e.

Definition weather_answer (r : result json) : result json :=
  match r with
  | Returned v => Returned v
  | Raised e => weather_handlers e
  end.

(** ** A sample weather service *)

(** [requests.exceptions.HTTPError], [ConnectionError] and
    [JSONDecodeError]; the last is also a [ValueError]. *)
Definition HTTPError_ (msg : string) : pyexc :=
  {| exc_classes := ["HTTPError"; "RequestException"; "OSError"; "Exception";
                     "BaseException"];
     exc_text := msg |}.
Definition ConnectionError_ (msg : string) : pyexc :=
  {| exc_classes := ["ConnectionError"; "RequestException"; "OSError";
                     "Exception"; "BaseException"];
     exc_text := msg |}.
Definition JSONDecodeError_ (msg : string) : pyexc :=
  {| exc_classes := ["JSONDecodeError"; "InvalidJSONError"; "RequestException";
                     "OSError"; "ValueError"; "Exception"; "BaseException"];
     exc_text := msg |}.

Definition paris_body : json :=
  JObj {[ "location" := JObj {[ "name" := JStr "Paris";
                                "country" := JStr "France" ]};
          "current" :=
            JObj {[ "temp_c" := JInt 21;
                    "condition" := JObj {[ "text" := JStr "Sunny";
                                           "code" := JInt 1000 ]};
                    "humidity" := JInt 40;
                    "wind_kph" := JInt 11;
                    "last_updated" := JStr "2024-06-01 12:00" ]} ]}.

Definition no_location_body : json :=
  JObj {[ "error" := JObj {[ "code" := JInt 1006;
                             "message" := JStr "No matching location found." ]} ]}.

(** A service that knows Paris; it answers a query for [Nowhere] with an
    error payload and status 200, one for [Atlantis] with the same payload
    and status 400, one for [Garbled] with a body that is not JSON, and
    cannot be reached for anything else. *)
Definition sample_weather : WeatherOutside :=
  {| WeatherWorld := unit;
     requests_get := λ url params timeout w,
       match params !! "q" with
       | Some (JStr "Paris") => (w, Returned (Returned tt, Returned paris_body))
       | Some (JStr "Nowhere") =>
           (w, Returned (Returned tt, Returned no_location_body))
       | Some (JStr "Atlantis") =>
           (w, Returned (Raised (HTTPError_ "400 Client Error: Bad Request"),
                         Returned no_location_body))
       | Some (JStr "Garbled") =>
           (w, Returned (Returned tt,
                         Raised (JSONDecodeError_
                                   "Expecting value: line 1 column 1 (char 0)")))
       | _ => (w, Raised (ConnectionError_ "Max retries exceeded"))
       end;
     WEATHERAPI_KEY := Some "k";
     py_strip := str_strip ascii_ops;
     py_repr := λ x,
       match x with
       | JNull => "None"
       | JBool true => "True"
       | JBool false => "False"
       | JInt 11 => "11"
       | _ => "..."
       end;
     contains_error_text := λ x,
       "argument of type '" +:+ type_name x +:+ "' is not iterable";
     subscript_error_text := λ x,
       "'" +:+ type_name x +:+ "' object is not subscriptable" |}.

Definition weather_start (O : WeatherOutside) (w : WeatherWorld O)
  : weather_state O :=
  {| weather_world := w; weather_log := [] |}.

(** * Proof support *)

(** Close an equation between closed terms by evaluation. *)
Ltac compute_eq :=
  lazymatch goal with
  | |- ?lhs = _ => vm_cast_no_check (@eq_refl _ lhs)
  end.

(** * Facts about [json] and the Schema Sanitizer *)

Lemma json_depth_lookup (d : gmap string json) k v :
  d !! k = Some v → json_depth v < json_depth (JObj d).
Proof.
  simpl. intros Hk. apply Nat.lt_succ_r. revert k v Hk.
  apply (map_fold_weak_ind
           (λ (r : nat) (m : gmap string json),
              ∀ k v, m !! k = Some v → json_depth v ≤ r)).
  - intros k v. by rewrite lookup_empty.
  - intros i x m r _ IH k v. rewrite lookup_insert.
    case_decide; intros Hk.
    + injection Hk as ->. lia.
    + specialize (IH _ _ Hk). lia.
Qed.

(** Induction on the nesting depth. *)
Lemma json_depth_ind (P : json → Prop) :
  (∀ j, (∀ j', json_depth j' < json_depth j → P j') → P j) →
  ∀ j, P j.
Proof.
  intros Hstep j. remember (json_depth j) as n eqn:Hn.
  revert j Hn. induction n as [n IH] using lt_wf_ind.
  intros j ->. apply Hstep. intros j' Hlt. by apply (IH _ Hlt).
Qed.

(** Enough fuel: any budget of at least the depth gives the same result. *)
Lemma clean_schema_rec_fuel n m s :
  json_depth s ≤ n → json_depth s ≤ m →
  clean_schema_rec n s = clean_schema_rec m s.
Proof.
  revert m s. induction n as [|n IH]; intros m s Hn Hm.
  - destruct s; try (by destruct m); simpl in Hn; lia.
  - destruct m as [|m]; [destruct s; try done; simpl in Hm; lia|].
    destruct s as [| | | | | |d]; try done. simpl.
    destruct (delete "title" d !! "properties") as [[| | | | | |props]|] eqn:Hp;
      try done.
    do 3 f_equal. apply map_fmap_ext. intros k v Hk.
    apply lookup_delete_Some in Hp as [_ Hp].
    apply json_depth_lookup in Hp, Hk. apply IH; lia.
Qed.

(** The defining equation of [clean_schema] on a dict, as the source reads. *)
Lemma clean_schema_dict d :
  clean_schema (JObj d) =
    let d1 := delete "title" d in
    match d1 !! "properties" with
    | Some (JObj props) =>
        JObj (<["properties" := JObj (clean_schema <$> props)]> d1)
    | _ => JObj d1
    end.
Proof.
  unfold clean_schema at 1.
  change (json_depth (JObj d)) with
    (S (map_fold (λ _ v acc, json_depth v `max` acc) 0 d)).
  set (n := map_fold _ _ _). assert (json_depth (JObj d) = S n) as Hd by done.
  simpl.
  destruct (delete "title" d !! "properties") as [[| | | | | |props]|] eqn:Hp;
    try done.
  do 3 f_equal. apply map_fmap_ext. intros k v Hk. unfold clean_schema.
  apply lookup_delete_Some in Hp as [_ Hp].
  apply json_depth_lookup in Hp, Hk. apply clean_schema_rec_fuel; lia.
Qed.


Lemma clean_schema_no_properties d :
  d !! "properties" = None → clean_schema (JObj d) = JObj (delete "title" d).
Proof.
  intros Hp. rewrite clean_schema_dict. simpl.
  by rewrite lookup_delete_ne, Hp.
Qed.

Lemma clean_schema_properties d props :
  d !! "properties" = Some (JObj props) →
  clean_schema (JObj d) =
    JObj (<["properties" := JObj (clean_schema <$> props)]> (delete "title" d)).
Proof.
  intros Hp. rewrite clean_schema_dict. simpl.
  by rewrite lookup_delete_ne, Hp.
Qed.

Lemma clean_schema_properties_not_dict d v :
  d !! "properties" = Some v → is_dict v = false →
  clean_schema (JObj d) = JObj (delete "title" d).
Proof.
  intros Hp Hv. rewrite clean_schema_dict. simpl.
  rewrite lookup_delete_ne, Hp by done. by destruct v.
Qed.

(** The three shapes a dict schema can have, with the result for each. *)
Lemma clean_schema_cases d :
  (d !! "properties" = None
     ∧ clean_schema (JObj d) = JObj (delete "title" d))
  ∨ (∃ v, d !! "properties" = Some v ∧ is_dict v = false
          ∧ clean_schema (JObj d) = JObj (delete "title" d))
  ∨ (∃ props, d !! "properties" = Some (JObj props)
          ∧ clean_schema (JObj d) =
              JObj (<["properties" := JObj (clean_schema <$> props)]>
                      (delete "title" d))).
Proof.
  destruct (d !! "properties") as [v|] eqn:Hp.
  - destruct (is_dict v) eqn:Hv.
    + destruct v; try done. right; right. eexists; split; [done|].
      by apply clean_schema_properties.
    + right; left. exists v. split_and!; [done..|].
      by eapply clean_schema_properties_not_dict.
  - left. split; [done|]. by apply clean_schema_no_properties.
Qed.

(** The result of [clean_schema] on a dict has no [title] key. *)
Lemma clean_schema_top_title d d' :
  clean_schema (JObj d) = JObj d' → d' !! "title" = None.
Proof.
  destruct (clean_schema_cases d) as [[_ ->]|[(v & _ & _ & ->)|(props & _ & ->)]];
    intros [= <-].
  - apply lookup_delete_eq.
  - apply lookup_delete_eq.
  - rewrite lookup_insert_ne by done. apply lookup_delete_eq.
Qed.

Lemma clean_schema_is_dict s : is_dict (clean_schema s) = is_dict s.
Proof.
  destruct s as [| | | | | |d]; try done.
  by destruct (clean_schema_cases d)
    as [[_ ->]|[(v & _ & _ & ->)|(props & _ & ->)]].
Qed.

(** The example of the specification: the nested titles are removed. *)
Example clean_schema_loc : clean_schema schema_loc = schema_loc_cleaned.
Proof. compute_eq. Qed.

(** A parameter that is itself named [title] is kept, without its own
    [title] annotation. *)
Example clean_schema_book :
  clean_schema schema_book =
    JObj {[ "type" := JStr "object";
            "properties" :=
              JObj {[ "title" := JObj {[ "type" := JStr "string" ]} ]} ]}.
Proof. compute_eq. Qed.

(** A sub-schema under [$defs] is not visited. *)
Example clean_schema_defs : clean_schema schema_defs = schema_defs.
Proof. compute_eq. Qed.

(** ** C1 *)


(** The key [title] of a [properties] dict is the name of a parameter; it
    is kept, so there as well a dict of the result has the key. *)
Example clean_schema_keeps_parameter_named_title :
  ¬ title_free_everywhere (clean_schema schema_book).
Proof.
  intros Hfree.
  assert (json_at [Key "properties"] (clean_schema schema_book)
            = Some (JObj {[ "title" := JObj {[ "type" := JStr "string" ]} ]}))
    as Hat by compute_eq.
  apply Hfree in Hat. by simplify_map_eq.
Qed.





(** ** C7 *)

(** C7: cleaning a cleaned schema changes nothing. *)
Theorem clean_schema_idempotent (s : json) :
  clean_schema (clean_schema s) = clean_schema s.
Proof.
  induction s as [s IH] using json_depth_ind.
  destruct s as [| | | | | |d]; try done.
  destruct (clean_schema_cases d)
    as [[Hp ->]|[(v & Hp & Hv & ->)|(props & Hp & ->)]].
  - rewrite clean_schema_no_properties by (by rewrite lookup_delete_ne).
    by rewrite delete_delete_eq.
  - rewrite (clean_schema_properties_not_dict _ v)
      by (done || by rewrite lookup_delete_ne).
    by rewrite delete_delete_eq.
  - rewrite (clean_schema_properties _ (clean_schema <$> props))
      by apply lookup_insert_eq.
    rewrite (delete_id (<["properties" := _]> _))
      by (rewrite lookup_insert_ne by done; apply lookup_delete_eq).
    rewrite insert_insert_eq. do 3 f_equal.
    rewrite <-map_fmap_compose. apply map_fmap_ext. intros k v Hk. simpl.
    apply IH. apply json_depth_lookup in Hp, Hk. lia.
Qed.

(** ** C9 *)

(** What [title_erasure] allows: a value that is not a dict is unchanged,
    and a dict stays a dict with the same keys other than [title]. *)
Lemma title_erasure_not_dict j j' :
  is_dict j = false → title_erasure j j' → j' = j.
Proof. intros Hj Herase. by destruct Herase. Qed.

Lemma title_erasure_keys d j' :
  title_erasure (JObj d) j' →
  ∃ d', j' = JObj d' ∧
        ∀ k, k ≠ "title" → is_Some (d' !! k) ↔ is_Some (d !! k).
Proof.
  inversion 1 as [|? d' Hkeys _]; subst; [by eexists|].
  exists d'. split; [done|]. intros k Hk.
  destruct (Hkeys k Hk); split; intros [? ?]; by eauto.
Qed.

(** C9: the result of [clean_schema] is its argument with [title] entries
    removed and nothing else changed: every other key is still there, at
    every level, with a value that differs at most by removed [title]
    entries.  [clean_schema] returns a value for every argument, with or
    without [properties] or [title], dict or not. *)
Theorem clean_schema_only_erases_titles (s : json) :
  title_erasure s (clean_schema s).
Proof.
  induction s as [s IH] using json_depth_ind.
  destruct s as [| | | | | |d]; try apply title_erasure_same.
  assert (∀ k, k ≠ "title" →
            option_Forall2 title_erasure (d !! k) (delete "title" d !! k)) as Hdel.
  { intros k Hk. rewrite lookup_delete_ne by done.
    destruct (d !! k); constructor. apply title_erasure_same. }
  destruct (clean_schema_cases d)
    as [[Hp ->]|[(v & Hp & Hv & ->)|(props & Hp & ->)]].
  - apply title_erasure_dict; [done|]. left. apply lookup_delete_eq.
  - apply title_erasure_dict; [done|]. left. apply lookup_delete_eq.
  - apply title_erasure_dict.
    + intros k Hk. destruct (decide (k = "properties")) as [->|Hne].
      * rewrite Hp, lookup_insert_eq. constructor.
        assert (∀ k, option_Forall2 title_erasure
                       (props !! k) ((clean_schema <$> props) !! k)) as Hprops.
        { intros k. rewrite lookup_fmap.
          destruct (props !! k) as [v|] eqn:Hv; constructor.
          apply IH. apply json_depth_lookup in Hp, Hv. lia. }
        apply title_erasure_dict; [by intros|by right].
      * rewrite lookup_insert_ne by done. by apply Hdel.
    + left. rewrite lookup_insert_ne by done. apply lookup_delete_eq.
Qed.

(** * Facts about the Tool Descriptor Translator *)

Lemma convert_mcp_tool_accepted G tool desc :
  mcp.description tool = Some desc →
  FunctionDeclaration_raises G (mcp.name tool) (desc +:+ RETURN_TYPE_SUFFIX)
    (clean_schema (mcp.inputSchema tool)) = None →
  Tool_raises G [declaration_of tool desc] = None →
  convert_mcp_tool G tool = Ok (group_of tool desc).
Proof.
  intros Hdesc Hdecl Htool.
  cbv [convert_mcp_tool new_FunctionDeclaration new_Tool str_add mbind
       outcome_bind].
  rewrite Hdesc. cbv beta iota. rewrite Hdecl.
  fold (declaration_of tool desc). by rewrite Htool.
Qed.

(** A tool without description stops the translation with a [TypeError],
    before either constructor is called. *)
Lemma convert_mcp_tool_undescribed G tool :
  mcp.description tool = None →
  convert_mcp_tool G tool
  = Raise (TypeError "unsupported operand type(s) for +: 'NoneType' and 'str'").
Proof. intros Hdesc. unfold convert_mcp_tool. by rewrite Hdesc. Qed.

(** The translation of one tool returns exactly for the tools the library
    accepts. *)
Lemma convert_mcp_tool_Ok G tool group :
  convert_mcp_tool G tool = Ok group →
  ∃ desc, mcp.description tool = Some desc
          ∧ FunctionDeclaration_raises G (mcp.name tool)
              (desc +:+ RETURN_TYPE_SUFFIX)
              (clean_schema (mcp.inputSchema tool)) = None
          ∧ Tool_raises G [declaration_of tool desc] = None
          ∧ group = group_of tool desc.
Proof.
  unfold convert_mcp_tool, new_FunctionDeclaration, new_Tool.
  destruct (mcp.description tool) as [desc|]; [|done]. simpl.
  destruct (FunctionDeclaration_raises G _ _ _) eqn:Hdecl; [done|]. simpl.
  destruct (Tool_raises G _) eqn:Htool; [done|].
  intros [= <-]. by exists desc.
Qed.

Lemma convert_mcp_tool_accepted_iff G tool :
  accepted G tool ↔ is_Ok (convert_mcp_tool G tool).
Proof.
  split.
  - intros (desc & Hdesc & Hdecl & Htool).
    by rewrite (convert_mcp_tool_accepted _ _ _ Hdesc Hdecl Htool).
  - destruct (convert_mcp_tool G tool) as [group|e] eqn:Hrun; [|done].
    intros _. apply convert_mcp_tool_Ok in Hrun as (desc & ? & ? & ? & _).
    by exists desc.
Qed.

Lemma convert_loop_accepted G mcp_tools gemini_tools :
  Forall (accepted G) mcp_tools →
  ∃ groups,
    convert_loop G mcp_tools gemini_tools = Ok (gemini_tools ++ groups)
    ∧ Forall2 (λ tool group,
                 ∃ desc, mcp.description tool = Some desc
                         ∧ group = group_of tool desc) mcp_tools groups.
Proof.
  intros Hall. revert gemini_tools.
  induction Hall as [|tool rest (desc & Hdesc & Hdecl & Htool) _ IH];
    intros gemini_tools.
  - exists []. by rewrite app_nil_r.
  - simpl. rewrite (convert_mcp_tool_accepted _ _ _ Hdesc Hdecl Htool). simpl.
    destruct (IH (gemini_tools ++ [group_of tool desc])) as (groups & -> & Hgroups).
    exists (group_of tool desc :: groups). split.
    + by rewrite <-app_assoc.
    + constructor; [by exists desc|done].
Qed.

(** The loop stops at the first tool whose translation raises. *)
Lemma convert_loop_raises G before tool after gemini_tools e :
  Forall (accepted G) before →
  convert_mcp_tool G tool = Raise e →
  convert_loop G (before ++ tool :: after) gemini_tools = Raise e.
Proof.
  intros Hall Hraise. revert gemini_tools.
  induction Hall as [|tool' rest (desc & Hdesc & Hdecl & Htool) _ IH];
    intros gemini_tools; simpl.
  - by rewrite Hraise.
  - rewrite (convert_mcp_tool_accepted _ _ _ Hdesc Hdecl Htool). simpl.
    apply IH.
Qed.

(** C5, amended: from [N] tool descriptors, each with a description and
    each accepted by the constructors of the library, the translator
    returns [N] groups, the [i]-th made from the [i]-th descriptor; each
    group holds exactly one declaration, which has the tool's name, the
    tool's description followed by the return-type suffix, and the cleaned
    input schema.  The names need not even be distinct. *)
Theorem convert_mcp_tools_to_gemini_one_group_per_tool (G : GeminiLibrary)
    (mcp_tools : list mcp.Tool) :
  Forall (accepted G) mcp_tools →
  ∃ gemini_tools,
    convert_mcp_tools_to_gemini G mcp_tools = Ok gemini_tools
    ∧ length gemini_tools = length mcp_tools
    ∧ ∀ i tool, mcp_tools !! i = Some tool →
        ∃ desc decl,
          mcp.description tool = Some desc
          ∧ (genai.function_declarations <$> gemini_tools !! i) = Some [decl]
          ∧ genai.name decl = mcp.name tool
          ∧ genai.description decl = desc +:+ RETURN_TYPE_SUFFIX
          ∧ genai.parameters decl = clean_schema (mcp.inputSchema tool).
Proof.
  intros Hall.
  destruct (convert_loop_accepted G mcp_tools [] Hall)
    as (groups & Hrun & Hgroups).
  exists groups. split_and!; [done|by erewrite <-Forall2_length|].
  intros i tool Hi.
  destruct (Forall2_lookup_l _ _ _ _ _ Hgroups Hi)
    as (group & Hgroup & desc & Hdesc & ->).
  exists desc. eexists. rewrite Hgroup. by split_and!.
Qed.

Lemma sample_library_accepts_samples :
  Forall (accepted sample_library) [add_integers_tool; web_search_tool].
Proof.
  repeat constructor; eexists; (split; [reflexivity|]);
    (split; [compute_eq|reflexivity]).
Qed.

Lemma convert_mcp_tools_to_gemini_one_group_per_tool_witness :
  ∃ gemini_tools,
    convert_mcp_tools_to_gemini sample_library
      [add_integers_tool; web_search_tool]
      = Ok gemini_tools
    ∧ length gemini_tools = 2
    ∧ ∀ i tool, [add_integers_tool; web_search_tool] !! i = Some tool →
        ∃ desc decl,
          mcp.description tool = Some desc
          ∧ (genai.function_declarations <$> gemini_tools !! i) = Some [decl]
          ∧ genai.name decl = mcp.name tool
          ∧ genai.description decl = desc +:+ RETURN_TYPE_SUFFIX
          ∧ genai.parameters decl = clean_schema (mcp.inputSchema tool).
Proof.
  apply (convert_mcp_tools_to_gemini_one_group_per_tool sample_library
           [add_integers_tool; web_search_tool]).
  apply sample_library_accepts_samples.
Defined.

(** C5, as stated, fails: the descriptors of [add_integers] and
    [get_weather] have distinct names and a description each, and the
    translator returns no group: the schema of [get_weather] keeps the
    [default] of its optional parameters after cleaning, and the
    constructor of the declaration raises on it. *)
Lemma convert_mcp_tools_to_gemini_raises_on_default :
  NoDup (mcp.name <$> [add_integers_tool; get_weather_tool])
  ∧ Forall (λ tool, is_Some (mcp.description tool))
      [add_integers_tool; get_weather_tool]
  ∧ convert_mcp_tools_to_gemini sample_library
      [add_integers_tool; get_weather_tool]
    = Raise (Exn true "Unknown field for Schema: default").
Proof.
  split_and!.
  - apply NoDup_cons. split; [|apply NoDup_singleton].
    intros Hin%list_elem_of_singleton. discriminate Hin.
  - repeat constructor; by eexists.
  - compute_eq.
Qed.

(** * Facts about the client *)

Section client_facts.
Context {O : Outside}.
Implicit Types (σ : state O) (evs : list (event O)).

(** ** The monad *)

Lemma bind_run {A B} (c : M (state O) A) (k : A → M (state O) B) σ :
  (c ≫= k) σ =
    match c σ with
    | (σ', Ok a) => k a σ'
    | (σ', Raise e) => (σ', Raise e)
    end.
Proof. done. Qed.

Lemma perform_run {A} (ev : outcome A → event O) oracle σ :
  perform ev oracle σ =
    ({| world := (oracle (world σ)).1;
        log := log σ ++ [ev (oracle (world σ)).2];
        self := self σ |}, (oracle (world σ)).2).
Proof. unfold perform. by destruct (oracle (world σ)). Qed.

(** The nested loops of [process_query] are one loop over all parts. *)
Lemma for_each_app {A B} (body : A → B → M (state O) B) l1 l2 acc σ :
  for_each body (l1 ++ l2) acc σ =
    (acc' ← for_each body l1 acc; for_each body l2 acc') σ.
Proof.
  revert acc σ. induction l1 as [|x l1 IH]; intros acc σ; simpl.
  - done.
  - rewrite !bind_run. destruct (body x acc σ) as [σ' [acc'|e]]; [|done].
    by rewrite IH.
Qed.

Lemma for_each_nested {A B C} (inner : A → list B)
    (body : B → C → M (state O) C) l acc σ :
  for_each (λ x acc, for_each body (inner x) acc) l acc σ =
    for_each body (x ← l; inner x) acc σ.
Proof.
  revert acc σ. induction l as [|x l IH]; intros acc σ; simpl; [done|].
  rewrite for_each_app, !bind_run.
  destruct (for_each body (inner x) acc σ) as [σ' [acc'|e]]; [|done].
  apply IH.
Qed.

Lemma new_events_extend {A} (c : M (state O) A) σ evs :
  log (c σ).1 = log σ ++ evs → new_events c σ = evs.
Proof. unfold new_events. intros ->. by rewrite drop_app_length. Qed.

Lemma tool_calls_app evs1 evs2 :
  tool_calls (evs1 ++ evs2) = tool_calls evs1 ++ tool_calls evs2.
Proof. apply omap_app. Qed.

Lemma generate_requests_app evs1 evs2 :
  generate_requests (evs1 ++ evs2)
    = generate_requests evs1 ++ generate_requests evs2.
Proof. apply omap_app. Qed.

(** ** One part of the original response *)

(** The tool call of lines 115-125, run: without a session the attribute
    error is caught at once; with a session the call is made and logged,
    and its outcome turned into text. *)
Lemma tool_response_text_run name args σ :
  tool_response_text name args σ =
    match session (self σ) with
    | Some s =>
        let out := session_call_tool O s name args (world σ) in
        ({| world := out.1;
            log := log σ ++ [EvCallTool s name args out.2];
            self := self σ |}, result_text out.2)
    | None =>
        (σ, Ok "Tool error: 'NoneType' object has no attribute 'call_tool'")
    end.
Proof.
  unfold tool_response_text, try_except, call_tool, result_text, caught.
  rewrite !bind_run. simpl. destruct (session (self σ)) as [s|]; [|done].
  rewrite perform_run.
  destruct (session_call_tool O s name args (world σ)) as [w [result|e]];
    simpl; [|by destruct (exn_is_Exception e)].
  unfold lift.
  destruct (is_list_or_dict O result);
    [destruct (json_dumps O result) as [text|e]
    |destruct (str O result) as [text|e]];
    simpl; try done; by destruct (exn_is_Exception e).
Qed.

(** The follow-up request, run. *)
Lemma follow_up_run tools query name args text final_text σ :
  (response ← generate_content tools (follow_up query name args text);
   mret (append_leading_text response final_text)) σ =
    let out := model_generate_content O tools
                 (follow_up query name args text) (world σ) in
    ({| world := out.1;
        log := log σ ++ [EvGenerate tools (follow_up query name args text) out.2];
        self := self σ |},
     match out.2 with
     | Ok response => Ok (append_leading_text response final_text)
     | Raise e => Raise e
     end).
Proof.
  unfold generate_content. rewrite bind_run, perform_run.
  by destruct (model_generate_content O tools _ (world σ)) as [w [response|e]].
Qed.

Lemma process_part_call_run tools query part fc final_text σ :
  genai.function_call part = Some fc →
  process_part tools (user_prompt_content query) part final_text σ =
    match tool_response_text (genai.fc_name fc)
            (default ∅ (genai.fc_args fc)) σ with
    | (σ1, Ok text) =>
        (response ← generate_content tools
                       (follow_up query (genai.fc_name fc)
                                  (default ∅ (genai.fc_args fc)) text);
         mret (append_leading_text response final_text)) σ1
    | (σ1, Raise e) => (σ1, Raise e)
    end.
Proof. intros Hfc. unfold process_part. by rewrite Hfc. Qed.

Lemma process_part_text_run tools query part final_text σ :
  genai.function_call part = None →
  process_part tools (user_prompt_content query) part final_text σ =
    (σ, Ok (final_text ++ [genai.text part])).
Proof. intros Hfc. unfold process_part. by rewrite Hfc. Qed.

(** Handling one part makes the tool call the part asks for, if the
    client has a session, and at most one request to the model; exactly
    one when the part asks for a call and no exception ends the handling
    before. *)
Lemma process_part_single_hop tools query part final_text σ :
  ∃ evs,
    log (process_part tools (user_prompt_content query) part final_text σ).1
      = log σ ++ evs
    ∧ self (process_part tools (user_prompt_content query) part final_text σ).1
      = self σ
    ∧ tool_calls evs = dispatched σ (option_list (requested_call part))
    ∧ length (generate_requests evs)
        ≤ length (option_list (requested_call part))
    ∧ (is_Ok (process_part tools (user_prompt_content query)
                part final_text σ).2 →
       length (generate_requests evs)
         = length (option_list (requested_call part))).
Proof.
  destruct (genai.function_call part) as [fc|] eqn:Hfc.
  - rewrite (process_part_call_run _ _ _ _ _ _ Hfc), tool_response_text_run.
    unfold requested_call, dispatched. rewrite Hfc. simpl.
    destruct (session (self σ)) as [s|]; simpl.
    + destruct (result_text _) as [text|e].
      * rewrite follow_up_run. simpl. rewrite <-app_assoc.
        eexists. split; [done|]. by split_and!.
      * simpl. eexists. split; [done|]. simpl. split_and!; [done..|lia|done].
    + rewrite follow_up_run. simpl. eexists. split; [done|]. by split_and!.
  - rewrite (process_part_text_run _ _ _ _ _ Hfc).
    unfold requested_call, dispatched. rewrite Hfc. simpl.
    exists []. rewrite app_nil_r. split_and!; try done. by destruct (session _).
Qed.

(** ** The loop over the parts, and the whole query *)

Lemma omap_cons_option_list {A B} (f : A → option B) x l :
  omap f (x :: l) = option_list (f x) ++ omap f l.
Proof. simpl. by destruct (f x). Qed.

Lemma dispatched_app σ calls1 calls2 :
  dispatched σ (calls1 ++ calls2) = dispatched σ calls1 ++ dispatched σ calls2.
Proof. unfold dispatched. by destruct (session (self σ)). Qed.

Lemma dispatched_same_self σ σ' calls :
  self σ' = self σ → dispatched σ' calls = dispatched σ calls.
Proof. unfold dispatched. by intros ->. Qed.

Lemma dispatched_prefix σ calls l :
  l `prefix_of` dispatched σ calls → l `prefix_of` calls.
Proof.
  unfold dispatched. destruct (session (self σ)); [done|].
  intros ->%prefix_nil_inv. apply prefix_nil.
Qed.

Lemma dispatched_length σ calls :
  length (dispatched σ calls) ≤ length calls.
Proof. unfold dispatched. destruct (session (self σ)); simpl; lia. Qed.

Lemma parts_loop_single_hop tools query parts final_text σ :
  ∃ evs,
    log (for_each (process_part tools (user_prompt_content query))
           parts final_text σ).1 = log σ ++ evs
    ∧ self (for_each (process_part tools (user_prompt_content query))
              parts final_text σ).1 = self σ
    ∧ tool_calls evs `prefix_of` dispatched σ (omap requested_call parts)
    ∧ length (generate_requests evs) ≤ length (omap requested_call parts)
    ∧ (is_Ok (for_each (process_part tools (user_prompt_content query))
                parts final_text σ).2 →
       tool_calls evs = dispatched σ (omap requested_call parts)
       ∧ length (generate_requests evs)
           = length (omap requested_call parts)).
Proof.
  revert final_text σ.
  induction parts as [|part parts IH]; intros final_text σ.
  - exists []. simpl. rewrite app_nil_r. split_and!; try done.
    + apply prefix_nil.
    + unfold dispatched. by destruct (session (self σ)).
  - rewrite omap_cons_option_list, dispatched_app, length_app.
    simpl for_each. rewrite bind_run.
    destruct (process_part_single_hop tools query part final_text σ)
      as (evs1 & Hlog1 & Hself1 & Hcalls1 & Hle1 & Heq1).
    destruct (process_part _ _ part final_text σ) as [σ1 [acc|e]];
      simpl in Hlog1, Hself1, Heq1.
    + destruct (IH acc σ1) as (evs2 & Hlog2 & Hself2 & Hcalls2 & Hle2 & Heq2).
      exists (evs1 ++ evs2).
      rewrite (dispatched_same_self _ _ _ Hself1) in Hcalls2, Heq2.
      rewrite tool_calls_app, generate_requests_app, length_app, Hcalls1.
      rewrite Hlog2, Hlog1, Hself2, Hself1, <-app_assoc, (Heq1 I).
      split_and!; [done|done|by apply prefix_app|lia|].
      intros [-> ->]%Heq2. done.
    + exists evs1. rewrite Hcalls1. simpl.
      split_and!; [done|done|by apply prefix_app_r|lia|done].
Qed.

(** [process_query], run: the declarations are read, the first request
    is made, and the parts of its response are handled in order. *)
Lemma process_query_run query σ :
  process_query query σ =
    match function_declarations (self σ) with
    | None =>
        (σ, Raise (AttributeError
               "'MCPClient' object has no attribute 'function_declarations'"))
    | Some tools =>
        let out := model_generate_content O tools
                     [user_prompt_content query] (world σ) in
        let σ1 := {| world := out.1;
                     log := log σ ++ [EvGenerate tools
                                        [user_prompt_content query] out.2];
                     self := self σ |} in
        match out.2 with
        | Raise e => (σ1, Raise e)
        | Ok response =>
            match for_each (process_part tools (user_prompt_content query))
                    (all_parts response) [] σ1 with
            | (σ2, Ok final_text) => (σ2, Ok (String.concat newline final_text))
            | (σ2, Raise e) => (σ2, Raise e)
            end
        end
    end.
Proof.
  unfold process_query, read_function_declarations, generate_content.
  rewrite !bind_run. simpl.
  destruct (function_declarations (self σ)) as [tools|]; [|done]. simpl.
  rewrite !bind_run, perform_run.
  destruct (model_generate_content O tools _ (world σ)) as [w [response|e]];
    [|done].
  simpl. rewrite bind_run, for_each_nested. done.
Qed.

(** ** C6 *)

(** C6: the events of [process_query] start with the request that carries
    the user's query; when that request is answered, what follows contains
    at most one further request to the model per function-call part of
    that original answer (exactly one per part when [process_query]
    returns), and the tool calls made are, in order, calls asked for by
    the parts of the original answer: a function call in the answer to a
    follow-up request is never sent to the session. *)
Theorem process_query_single_hop (query : string) (σ : state O) :
  new_events (process_query query) σ = []
  ∨ ∃ tools original rest,
      new_events (process_query query) σ
        = EvGenerate tools [user_prompt_content query] original :: rest
      ∧ match original with
        | Raise _ => rest = []
        | Ok response =>
            length (generate_requests rest)
              ≤ length (requested_calls response)
            ∧ tool_calls rest `prefix_of` requested_calls response
            ∧ (is_Ok (process_query query σ).2 →
               length (generate_requests rest)
                 = length (requested_calls response))
        end.
Proof.
  rewrite process_query_run.
  destruct (function_declarations (self σ)) as [tools|] eqn:Hdecls.
  - right. exists tools. simpl.
    destruct (model_generate_content O tools _ (world σ))
      as [w [response|e]] eqn:Hgen; simpl.
    + set (σ1 := {| world := w |}).
      destruct (parts_loop_single_hop tools query (all_parts response) [] σ1)
        as (rest & Hlog & _ & Hcalls & Hle & Heq).
      exists (Ok response), rest. split.
      * apply new_events_extend. rewrite process_query_run, Hdecls, Hgen.
        simpl. fold σ1.
        destruct (for_each _ (all_parts response) [] σ1) as [σ2 [texts|e]];
          simpl in *; by rewrite Hlog, <-app_assoc.
      * split_and!; [done|by eapply dispatched_prefix|].
        destruct (for_each _ (all_parts response) [] σ1) as [σ2 [texts|e]];
          [|done].
        intros _. by apply Heq.
    + exists (Raise e), []. split; [|done].
      apply new_events_extend. by rewrite process_query_run, Hdecls, Hgen.
  - left. apply new_events_extend.
    rewrite process_query_run, Hdecls. simpl. by rewrite app_nil_r.
Qed.

(** ** C2: a tool call that raises *)

Lemma errors_answered_app query evs1 evs2 :
  errors_answered query evs1 → errors_answered query evs2 →
  errors_answered query (evs1 ++ evs2).
Proof.
  intros H1 H2 i s name args e [Hi|[Hlen Hi]]%lookup_app_Some Hexc.
  - destruct (H1 _ _ _ _ _ Hi Hexc) as (tools & response & Hnext).
    exists tools, response. by apply lookup_app_l_Some.
  - destruct (H2 _ _ _ _ _ Hi Hexc) as (tools & response & Hnext).
    exists tools, response. rewrite lookup_app_r by lia.
    by replace (S i - length evs1) with (S (i - length evs1)) by lia.
Qed.

Lemma errors_answered_nil query : errors_answered (O:=O) query [].
Proof. by intros i ?????. Qed.

Lemma errors_answered_generate query tools contents response :
  errors_answered (O:=O) query [EvGenerate tools contents response].
Proof. by intros [|[|i]] ?????. Qed.

(** What [caught] lets through is not an [Exception]. *)
Lemma caught_Raise o e : caught o = Raise e → exn_is_Exception e = false.
Proof.
  destruct o as [text|e']; simpl; [done|].
  destruct (exn_is_Exception e') eqn:He'; by intros [= <-].
Qed.

Lemma result_text_error e :
  exn_is_Exception e = true →
  result_text (O:=O) (Raise e) = Ok ("Tool error: " +:+ exn_str e).
Proof. intros He. unfold result_text. simpl. by rewrite He. Qed.

Lemma answers_app evs1 evs2 : answers (evs1 ++ evs2) = answers evs1 ++ answers evs2.
Proof. apply omap_app. Qed.

Lemma append_leading_text_app response final_text :
  append_leading_text response final_text
    = final_text ++ append_leading_text response [].
Proof.
  unfold append_leading_text.
  destruct (genai.candidates response) as [|candidate0 ?];
    [by rewrite app_nil_r|].
  destruct (genai.parts (genai.content candidate0));
    [by rewrite app_nil_r|done].
Qed.

(** All there is to know about the handling of one part. *)
Lemma process_part_outcome tools query part final_text σ :
  ∃ evs,
    log (process_part tools (user_prompt_content query) part final_text σ).1
      = log σ ++ evs
    ∧ self (process_part tools (user_prompt_content query) part final_text σ).1
      = self σ
    ∧ errors_answered query evs
    ∧ (∀ e, (process_part tools (user_prompt_content query)
               part final_text σ).2 = Raise e →
            exn_is_Exception e = true → raised_by_model evs e)
    ∧ (∀ texts, (process_part tools (user_prompt_content query)
                   part final_text σ).2 = Ok texts →
         match genai.function_call part with
         | None => answers evs = [] ∧ texts = final_text ++ [genai.text part]
         | Some _ =>
             ∃ answer, answers evs = [answer]
                       ∧ texts = final_text ++ append_leading_text answer []
         end).
Proof.
  destruct (genai.function_call part) as [fc|] eqn:Hfc.
  - rewrite (process_part_call_run _ _ _ _ _ _ Hfc), tool_response_text_run.
    destruct (session (self σ)) as [s|]; simpl.
    + destruct (session_call_tool O s _ _ (world σ)) as [w r]. simpl.
      destruct (result_text r) as [text|e] eqn:Htext.
      * rewrite follow_up_run. simpl. rewrite <-app_assoc.
        eexists. split_and!; [done|done| | |].
        -- intros [|[|i]] s' name args e; simpl; [|done..].
           intros [= <- <- <- ->] He.
           rewrite (result_text_error _ He) in Htext.
           injection Htext as <-. by eexists _, _.
        -- intros e.
           destruct (model_generate_content O _ _ _) as [w' [response|e']];
             simpl; [done|].
           intros [= ->] _. by eexists _, _.
        -- intros texts.
           destruct (model_generate_content O _ _ _) as [w' [response|e']];
             simpl; [|done].
           intros [= <-]. exists response.
           by rewrite append_leading_text_app.
      * simpl. eexists. split_and!; [done|done| | |done].
        -- intros [|i] s' name args e'; simpl; [|done].
           intros [= <- <- <- ->] He.
           by rewrite (result_text_error _ He) in Htext.
        -- intros e' [= ->] He. apply caught_Raise in Htext. congruence.
    + rewrite follow_up_run. simpl.
      eexists. split_and!; [done|done|apply errors_answered_generate| |].
      * intros e.
        destruct (model_generate_content O _ _ _) as [w' [response|e']];
          simpl; [done|].
        intros [= ->] _. by eexists _, _.
      * intros texts.
        destruct (model_generate_content O _ _ _) as [w' [response|e']];
          simpl; [|done].
        intros [= <-]. exists response.
        by rewrite append_leading_text_app.
  - rewrite (process_part_text_run _ _ _ _ _ Hfc). simpl.
    exists []. rewrite app_nil_r.
    split_and!; [done|done|apply errors_answered_nil|done|].
    by intros texts [= <-].
Qed.

Lemma parts_loop_outcome tools query parts final_text σ :
  ∃ evs,
    log (for_each (process_part tools (user_prompt_content query))
           parts final_text σ).1 = log σ ++ evs
    ∧ errors_answered query evs
    ∧ (∀ e, (for_each (process_part tools (user_prompt_content query))
               parts final_text σ).2 = Raise e →
            exn_is_Exception e = true → raised_by_model evs e)
    ∧ (∀ texts, (for_each (process_part tools (user_prompt_content query))
                   parts final_text σ).2 = Ok texts →
                texts = final_text ++ answer_texts parts (answers evs)).
Proof.
  revert final_text σ.
  induction parts as [|part parts IH]; intros final_text σ.
  - exists []. simpl. rewrite app_nil_r.
    split_and!; [done|apply errors_answered_nil|done|].
    intros texts [= <-]. by rewrite app_nil_r.
  - simpl for_each. rewrite bind_run.
    destruct (process_part_outcome tools query part final_text σ)
      as (evs1 & Hlog1 & _ & Hans1 & Hesc1 & Htexts1).
    destruct (process_part _ _ part final_text σ) as [σ1 [acc|e]];
      simpl in Hlog1, Hesc1, Htexts1.
    + destruct (IH acc σ1) as (evs2 & Hlog2 & Hans2 & Hesc2 & Htexts2).
      exists (evs1 ++ evs2). rewrite Hlog2, Hlog1, <-app_assoc.
      split_and!; [done|by apply errors_answered_app| |].
      * intros e He Hexc.
        destruct (Hesc2 e He Hexc) as (tools' & contents & Hlast).
        exists tools', contents. apply last_app_Some. by left.
      * intros texts ->%Htexts2. rewrite answers_app. simpl.
        specialize (Htexts1 acc eq_refl).
        destruct (genai.function_call part).
        -- destruct Htexts1 as (answer & -> & ->). simpl.
           by rewrite <-app_assoc.
        -- destruct Htexts1 as [-> ->]. simpl. by rewrite <-app_assoc.
    + exists evs1. by split_and!.
Qed.

(** C2, amended: when a tool call made by [process_query] raises an
    [Exception], the exception is caught and the next thing the client
    does is send the model the follow-up request whose function response
    is the text ["Tool error: "] followed by the exception's text.  An
    [Exception] that ends [process_query] was raised by a request to the
    model (or by the client having no function declarations, before any
    request); it is never the error of a tool call.  The string
    [process_query] returns is made of the model's texts only, joined by
    newlines: the text parts of the original response and, for each
    function-call part, the leading text of the answer to its follow-up
    request, if there is one. *)
Theorem process_query_tool_error_answered (query : string) (σ : state O) :
  errors_answered query (new_events (process_query query) σ)
  ∧ (∀ e, (process_query query σ).2 = Raise e →
          exn_is_Exception e = true →
          function_declarations (self σ) = None
          ∨ raised_by_model (new_events (process_query query) σ) e)
  ∧ (∀ returned, (process_query query σ).2 = Ok returned →
       ∃ tools response rest,
         new_events (process_query query) σ
           = EvGenerate tools [user_prompt_content query] (Ok response)
               :: rest
         ∧ returned
             = String.concat newline
                 (answer_texts (all_parts response) (answers rest))).
Proof.
  destruct (function_declarations (self σ)) as [tools|] eqn:Hdecls.
  - pose proof (process_query_run query σ) as Hrun.
    rewrite Hdecls in Hrun. simpl in Hrun.
    destruct (model_generate_content O tools _ (world σ))
      as [w [response|e]] eqn:Hgen; simpl in Hrun.
    + set (σ1 := {| world := w |}) in Hrun.
      destruct (parts_loop_outcome tools query (all_parts response) [] σ1)
        as (rest & Hlog & Hans & Hesc & Htexts).
      assert (new_events (process_query query) σ
                = [EvGenerate tools [user_prompt_content query] (Ok response)]
                  ++ rest) as ->.
      { apply new_events_extend. rewrite Hrun.
        destruct (for_each _ (all_parts response) [] σ1) as [σ2 [texts|e]];
          simpl in *; by rewrite Hlog, <-app_assoc. }
      rewrite Hrun.
      destruct (for_each _ (all_parts response) [] σ1) as [σ2 [texts|e']];
        simpl in *.
      * split_and!.
        -- apply (errors_answered_app query [_] rest);
             [apply errors_answered_generate|done].
        -- done.
        -- intros returned [= <-]. exists tools, response, rest.
           split; [done|]. by rewrite (Htexts texts eq_refl).
      * split_and!.
        -- apply (errors_answered_app query [_] rest);
             [apply errors_answered_generate|done].
        -- intros e [= <-] Hexc. right.
           destruct (Hesc e' eq_refl Hexc) as (tools' & contents & Hlast).
           exists tools', contents. apply (last_app_Some [_] rest). by left.
        -- done.
    + assert (new_events (process_query query) σ
                = [EvGenerate tools [user_prompt_content query] (Raise e)])
        as ->.
      { apply new_events_extend. by rewrite Hrun. }
      rewrite Hrun. split_and!; [apply errors_answered_generate| |done].
      intros e' [= <-] _. right. by eexists _, _.
  - assert (new_events (process_query query) σ = []) as ->.
    { apply new_events_extend.
      rewrite process_query_run, Hdecls. simpl. by rewrite app_nil_r. }
    rewrite process_query_run, Hdecls.
    split_and!; [apply errors_answered_nil|by left|done].
Qed.

End client_facts.

(** The model asks for [add_integers(2, 3)], the session is broken and the
    call raises; the model is told so and answers with no candidate. *)
Example broken_session_events :
  new_events (process_query "what's 2 and 3 added") broken_session_connected
  = [ EvGenerate (O:=broken_session_world)
        [group_of add_integers_tool "Add two positive integers"]
        [user_prompt_content "what's 2 and 3 added"]
        (Ok (response_of_parts [add_call_part]));
      EvCallTool (O:=broken_session_world) () "add_integers" {[ "num1" := JInt 2; "num2" := JInt 3 ]}
        (Raise (Exn true "connection lost"));
      EvGenerate
        [group_of add_integers_tool "Add two positive integers"]
        (follow_up "what's 2 and 3 added" "add_integers"
           {[ "num1" := JInt 2; "num2" := JInt 3 ]}
           "Tool error: connection lost")
        (Ok empty_response) ].
Proof. compute_eq. Qed.

(** C2, as stated, fails: in the broken-session world the model's response
    contains a function-call part and the tool call raises, yet
    [process_query] returns the empty string: what it returns is the text of
    the model's answers, and here the model answered the follow-up request
    with no candidate. *)
Lemma process_query_tool_error_returns_empty :
  new_events (process_query "what's 2 and 3 added") broken_session_connected
    !! 1
  = Some (EvCallTool (O:=broken_session_world) () "add_integers" {[ "num1" := JInt 2; "num2" := JInt 3 ]}
            (Raise (Exn true "connection lost")))
  ∧ (process_query "what's 2 and 3 added" broken_session_connected).2 = Ok "".
Proof. split; compute_eq. Qed.

Lemma process_query_tool_error_answered_witness :
  (∃ tools response,
     new_events (process_query "what's 2 and 3 added") broken_session_connected
       !! 2
     = Some (EvGenerate tools
               (follow_up "what's 2 and 3 added" "add_integers"
                  {[ "num1" := JInt 2; "num2" := JInt 3 ]}
                  "Tool error: connection lost")
               response))
  ∧ (function_declarations (self (fresh_state working_world ())) = None
     ∨ raised_by_model
         (new_events (process_query "hello") (fresh_state working_world ()))
         (AttributeError
            "'MCPClient' object has no attribute 'function_declarations'"))
  ∧ (∃ tools response rest,
       new_events (process_query "what's 2 and 3 added") working_connected
         = EvGenerate tools [user_prompt_content "what's 2 and 3 added"]
             (Ok response) :: rest
       ∧ "2 + 3 = 5"
         = String.concat newline
             (answer_texts (all_parts response) (answers rest))).
Proof.
  split_and!.
  - apply (proj1 (process_query_tool_error_answered
                    "what's 2 and 3 added" broken_session_connected)
             1 (() : Session broken_session_world) "add_integers"
             {[ "num1" := JInt 2; "num2" := JInt 3 ]}
             (Exn true "connection lost")).
    + compute_eq.
    + reflexivity.
  - apply (proj1 (proj2 (process_query_tool_error_answered
                           "hello" (fresh_state working_world ())))).
    + reflexivity.
    + reflexivity.
  - apply (proj2 (proj2 (process_query_tool_error_answered
                           "what's 2 and 3 added" working_connected))).
    compute_eq.
Defined.

(** In the working world the model asks for one call and then answers in
    text: two requests to the model, one tool call. *)
Example working_query :
  (process_query "what's 2 and 3 added" working_connected).2 = Ok "2 + 3 = 5"
  ∧ tool_calls (new_events (process_query "what's 2 and 3 added")
                  working_connected)
    = [("add_integers", {[ "num1" := JInt 2; "num2" := JInt 3 ]})]
  ∧ length (generate_requests
              (new_events (process_query "what's 2 and 3 added")
                 working_connected)) = 2.
Proof. split_and!; compute_eq. Qed.

Lemma process_query_single_hop_witness :
  ∃ tools response rest,
    new_events (process_query "what's 2 and 3 added") working_connected
      = EvGenerate tools [user_prompt_content "what's 2 and 3 added"]
          (Ok response) :: rest
    ∧ length (generate_requests rest) = length (requested_calls response).
Proof.
  destruct (process_query_single_hop "what's 2 and 3 added" working_connected)
    as [Hnone|(tools & original & rest & Hevents & Hrest)].
  - apply (f_equal length) in Hnone. by vm_compute in Hnone.
  - destruct original as [response|e].
    + exists tools, response, rest. split; [exact Hevents|].
      apply Hrest. by vm_compute.
    + apply (f_equal (λ evs, match evs with
                              | EvGenerate _ _ (Ok _) :: _ => true
                              | _ => false
                              end)) in Hevents.
      by vm_compute in Hevents.
Defined.

(** * Facts about the Session Manager *)

Section session_facts.
Context {O : Outside}.
Implicit Types (σ : state O) (evs : list (event O)).

(** What is left of [cleanup] once the session context is dealt with. *)
Lemma cleanup_run σ :
  cleanup σ =
    match _session_context (self σ) with
    | Some c =>
        match aexit_context c σ with
        | (σ1, Ok _) =>
            match _streams_context (self σ1) with
            | Some c' => aexit_context c' σ1
            | None => (σ1, Ok ())
            end
        | (σ1, Raise e) => (σ1, Raise e)
        end
    | None =>
        match _streams_context (self σ) with
        | Some c' => aexit_context c' σ
        | None => (σ, Ok ())
        end
    end.
Proof.
  unfold cleanup, get_self, mbind, M_bind. simpl.
  destruct (_session_context (self σ)) as [c|]; simpl.
  - destruct (aexit_context c σ) as [σ1 [[]|e]]; [|done].
    by destruct (_streams_context (self σ1)).
  - by destruct (_streams_context (self σ)).
Qed.

Lemma aexit_context_run c σ :
  aexit_context c σ =
    ({| world := (aexit O c (world σ)).1;
        log := log σ ++ [EvExit c (raised (aexit O c (world σ)).2)];
        self := self σ |}, (aexit O c (world σ)).2).
Proof. unfold aexit_context. by rewrite perform_run. Qed.

(** The events of [cleanup], case by case: with the contexts [sc] and
    [tc] of the client, the session context is exited first; the stream
    context is exited next unless the first exit raised. *)
Lemma cleanup_events σ :
  ∃ evs,
    log (cleanup σ).1 = log σ ++ evs
    ∧ self (cleanup σ).1 = self σ
    ∧ length (exits evs) = length evs
    ∧ exits evs `prefix_of`
        option_list (_session_context (self σ))
          ++ option_list (_streams_context (self σ))
    ∧ (is_Ok (cleanup σ).2 →
       exits evs = option_list (_session_context (self σ))
                     ++ option_list (_streams_context (self σ)))
    ∧ (∀ e, (cleanup σ).2 = Raise e ↔
            ∃ c, last evs = Some (EvExit c (Some e))).
Proof.
  rewrite cleanup_run.
  destruct (_session_context (self σ)) as [sc|] eqn:Hsc;
    destruct (_streams_context (self σ)) as [tc|] eqn:Htc;
    rewrite ?aexit_context_run; simpl;
    try (destruct (aexit O sc (world σ)) as [w1 [[]|e1]]; simpl);
    rewrite ?Htc, ?aexit_context_run; simpl;
    try (destruct (aexit O tc _) as [w2 [[]|e2]]; simpl);
    rewrite <-?app_assoc.
  all: try (eexists; split; [reflexivity|]; simpl).
  all: try (exists []; rewrite app_nil_r; split; [reflexivity|]; simpl).
  all: split_and!; [done|done|try done|try done|].
  all: try (by apply prefix_cons, prefix_nil).
  all: intros e; split; [first [by intros [= ->]; eexists| done]|].
  all: first [by intros [c [= _ ->]] | by intros [c [=]]].
Qed.


(** [cleanup] exits the contexts of the client, the session context
    first, as [exit_each] does. *)
Lemma cleanup_exit_each σ :
  cleanup σ =
    let '(w, evs, r) :=
      exit_each (option_list (_session_context (self σ))
                   ++ option_list (_streams_context (self σ))) (world σ) in
    ({| world := w; log := log σ ++ evs; self := self σ |}, r).
Proof.
  rewrite cleanup_run.
  destruct σ as [w0 l0 [s0 tc sc decls]]. simpl.
  destruct sc as [sc|]; destruct tc as [tc|]; simpl;
    rewrite ?aexit_context_run; simpl;
    try (destruct (aexit O sc w0) as [w1 [[]|e1]]; simpl);
    rewrite ?aexit_context_run; simpl;
    try (destruct (aexit O tc _) as [w2 [[]|e2]]; simpl);
    rewrite <-?app_assoc, ?app_nil_r; done.
Qed.

(** In [exit_each], an [__aexit__] that raised is the last one made, and
    its exception the outcome. *)
Lemma exit_each_raised (cs : list (context_manager (Streams O))) w c e :
  EvExit (O:=O) c (Some e) ∈ (exit_each cs w).1.2 →
  (exit_each cs w).2 = Raise e.
Proof.
  revert w. induction cs as [|c' cs IH]; intros w; simpl.
  - by intros ?%elem_of_nil.
  - destruct (aexit O c' w) as [w' [[]|e']]; simpl.
    + specialize (IH w'). destruct (exit_each cs w') as [[w'' evs] r].
      simpl in *. intros [[=]|Hin]%elem_of_cons. by apply IH.
    + by intros [= -> ->]%list_elem_of_singleton.
Qed.

Lemma cleanup_raised σ c e :
  EvExit c (Some e) ∈ new_events cleanup σ → (cleanup σ).2 = Raise e.
Proof.
  unfold new_events. rewrite cleanup_exit_each.
  pose proof (exit_each_raised
                (option_list (_session_context (self σ))
                   ++ option_list (_streams_context (self σ)))
                (world σ) c e) as Hraised.
  destruct (exit_each _ (world σ)) as [[w evs] r]. simpl in *.
  by rewrite drop_app_length.
Qed.

(** Which [__aexit__] call made [cleanup] raise. *)
Lemma cleanup_raises_cases σ e :
  (cleanup σ).2 = Raise e ↔
  (∃ c w, _session_context (self σ) = Some c
          ∧ aexit O c (world σ) = (w, Raise e))
  ∨ (∃ c w, _session_context (self σ) = None
            ∧ _streams_context (self σ) = Some c
            ∧ aexit O c (world σ) = (w, Raise e))
  ∨ (∃ c w c' w', _session_context (self σ) = Some c
                  ∧ aexit O c (world σ) = (w, Ok ())
                  ∧ _streams_context (self σ) = Some c'
                  ∧ aexit O c' w = (w', Raise e)).
Proof.
  rewrite cleanup_run.
  destruct (_session_context (self σ)) as [sc|] eqn:Hsc.
  - rewrite aexit_context_run. simpl.
    destruct (aexit O sc (world σ)) as [w1 [[]|e1]] eqn:Hexit; simpl.
    + destruct (_streams_context (self σ)) as [tc|] eqn:Htc.
      * rewrite aexit_context_run. simpl. split.
        -- intros Hraise. do 2 right. exists sc, w1, tc, (aexit O tc w1).1.
           split_and!; [done..|].
           destruct (aexit O tc w1) as [w2 r2]. simpl in *. by subst r2.
        -- intros [(c & w & Hc & Hx)
                  |[(c & w & Hc & _)
                   |(c & w & c' & w' & Hc & Hx & Hc' & Hx')]];
             [congruence..|].
           injection Hc as <-. rewrite Hexit in Hx. injection Hx as <-.
           injection Hc' as <-. by rewrite Hx'.
      * split; [done|].
        intros [(c & w & Hc & Hx)
               |[(c & w & Hc & _)|(c & w & c' & w' & _ & _ & Hc' & _)]];
          congruence.
    + split.
      * intros [= ->]. left. by exists sc, w1.
      * intros [(c & w & Hc & Hx)
               |[(c & w & Hc & _)|(c & w & c' & w' & Hc & Hx & _)]];
          congruence.
  - destruct (_streams_context (self σ)) as [tc|] eqn:Htc.
    + rewrite aexit_context_run. simpl. split.
      * intros Hraise. right; left. exists tc, (aexit O tc (world σ)).1.
        split_and!; [done..|].
        destruct (aexit O tc (world σ)) as [w2 r2]. simpl in *. by subst r2.
      * intros [(c & w & Hc & _)
               |[(c & w & _ & Hc & Hx)|(c & w & c' & w' & Hc & _)]];
          [congruence| |congruence].
        injection Hc as <-. by rewrite Hx.
    + split; [done|].
      intros [(c & w & Hc & _)
             |[(c & w & _ & Hc & _)|(c & w & c' & w' & Hc & _)]];
        congruence.
Qed.

(** ** C8 *)


(** ** C4 *)

(** C4, amended: [cleanup] raises exactly when one of the [__aexit__]
    calls it makes raises, and then with that exception: a teardown
    error, of the session context or of the stream context, goes to the
    caller and is never swallowed.  On a client that has no context yet
    (before [connect_to_sse_server] created any), [cleanup] makes no call
    and returns, also when called twice.  [cleanup] leaves the attributes
    of the client as they are. *)
Theorem cleanup_raises_iff_teardown_raises (σ : state O) :
  (∀ e, (cleanup σ).2 = Raise e ↔
        ∃ c, last (new_events cleanup σ) = Some (EvExit c (Some e)))
  ∧ (∀ c e, EvExit c (Some e) ∈ new_events cleanup σ →
            (cleanup σ).2 = Raise e)
  ∧ (∀ e, (cleanup σ).2 = Raise e ↔
       (∃ c w, _session_context (self σ) = Some c
               ∧ aexit O c (world σ) = (w, Raise e))
       ∨ (∃ c w, _session_context (self σ) = None
                 ∧ _streams_context (self σ) = Some c
                 ∧ aexit O c (world σ) = (w, Raise e))
       ∨ (∃ c w c' w', _session_context (self σ) = Some c
                       ∧ aexit O c (world σ) = (w, Ok ())
                       ∧ _streams_context (self σ) = Some c'
                       ∧ aexit O c' w = (w', Raise e)))
  ∧ (_session_context (self σ) = None →
     _streams_context (self σ) = None →
     cleanup σ = (σ, Ok ()) ∧ (cleanup;; cleanup) σ = (σ, Ok ()))
  ∧ self (cleanup σ).1 = self σ.
Proof.
  destruct (cleanup_events σ) as (evs & Hlog & Hself & _ & _ & _ & Hraise).
  split_and!.
  - by rewrite (new_events_extend _ _ _ Hlog).
  - apply cleanup_raised.
  - apply cleanup_raises_cases.
  - intros Hsc Htc.
    assert (cleanup σ = (σ, Ok ())) as Hrun
      by (by rewrite cleanup_run, Hsc, Htc).
    split; [done|]. by rewrite bind_run, Hrun.
  - done.
Qed.

End session_facts.

(** C4, as stated, fails: in the broken-session world, closing the session
    context raises and [cleanup] raises that error to its caller. *)
Lemma cleanup_raises_when_session_exit_raises :
  (cleanup broken_session_connected).2
  = Raise (Exn true "session is already closed").
Proof. compute_eq. Qed.

(** The stream context is then left open. *)
Example cleanup_broken_session_exits :
  exits (new_events cleanup broken_session_connected) = [ClientSession ()].
Proof. compute_eq. Qed.

Lemma cleanup_raises_iff_teardown_raises_witness :
  (cleanup (fresh_state working_world ())
   = (fresh_state working_world (), Ok ())
   ∧ (cleanup;; cleanup) (fresh_state working_world ())
     = (fresh_state working_world (), Ok ()))
  ∧ (cleanup broken_session_connected).2
    = Raise (Exn true "session is already closed").
Proof.
  split.
  - apply (proj1 (proj2 (proj2 (proj2 (cleanup_raises_iff_teardown_raises
                                         (fresh_state working_world ()))))));
      reflexivity.
  - apply (proj1 (proj2 (cleanup_raises_iff_teardown_raises
                           broken_session_connected))
             (ClientSession (() : Streams broken_session_world))).
    assert (new_events cleanup broken_session_connected
            = [EvExit (ClientSession (() : Streams broken_session_world))
                 (Some (Exn true "session is already closed"))]) as ->
      by compute_eq.
    apply list_elem_of_here.
Defined.



(** * Facts about the tool servers *)

(** ** C3 *)

(** Whatever the command, [run_command] runs nothing and returns the text
    of the [TypeError] that [subprocess.run] raises for its missing first
    argument. *)
Lemma run_command_ignores_command {O : ServerOutside} (command : string)
    (σ : server_state O) :
  main.run_command command σ =
    (σ, Ok "Popen.__init__() missing 1 required positional argument: 'args'").
Proof. done. Qed.

(** C3 (the code departs from it): on the command [echo hello], in a
    world whose shell would print [hello], [run_command] runs no command
    and returns the text of a [TypeError]; the function its docstring
    describes runs the command in the workspace directory and returns
    [hello]. *)
Theorem run_command_echo_hello :
  main.run_command "echo hello" (server_start search_down_world ())
  = (server_start search_down_world (),
     Ok "Popen.__init__() missing 1 required positional argument: 'args'")
  ∧ main.run_command_as_documented "echo hello"
      (server_start search_down_world ())
    = ({| server_world := () : ServerWorld search_down_world;
          server_log := [EvShell "echo hello" main.DEFAULT_WORKSPACE] |},
       Ok "hello").
Proof. split; compute_eq. Qed.

(** ** C10 *)

Section web_search_facts.
Context {O : ServerOutside}.

Lemma web_search_same (query : string) (σ : server_state O) :
  server_sse.web_search query σ = main.web_search query σ.
Proof. done. Qed.

Lemma web_search_run (query : string) (σ : server_state O) :
  main.web_search query σ =
    let out := tavily_search O query (server_world σ) in
    let σ1 := {| server_world := out.1;
                 server_log := server_log σ ++ [EvSearch query] |} in
    match out.2 with
    | Ok response =>
        match response !! "results" with
        | Some results => (σ1, Ok results)
        | None => (σ1, Ok (JObj {[ "error" := JStr "'results'" ]}))
        end
    | Raise e =>
        if exn_is_Exception e
        then (σ1, Ok (JObj {[ "error" := JStr (exn_str e) ]}))
        else (σ1, Raise e)
    end.
Proof.
  unfold main.web_search, try_except, server_perform, getitem,
    mbind, M_bind. simpl.
  destruct (tavily_search O query (server_world σ)) as [w [response|e]];
    simpl; [|done].
  by destruct (response !! "results").
Qed.

(** C10: when the search client raises an [Exception] on [query],
    [web_search], in [main.py] and in [server_sse.py] alike, raises
    nothing and returns the dict whose only key is [error], with the text
    of the exception as its value: a dict, where the declared return type
    is a list. *)
Theorem web_search_error_dict (query : string) (σ : server_state O) (e : exn) :
  (tavily_search O query (server_world σ)).2 = Raise e →
  exn_is_Exception e = true →
  ∃ d, (main.web_search query σ).2 = Ok (JObj d)
       ∧ (server_sse.web_search query σ).2 = Ok (JObj d)
       ∧ d = {[ "error" := JStr (exn_str e) ]}
       ∧ dom d = {[ "error" ]}
       ∧ is_list (JObj d) = false.
Proof.
  intros Hraise Hexc. eexists.
  change (server_sse.web_search query σ) with (main.web_search query σ).
  rewrite web_search_run. simpl. rewrite Hraise, Hexc.
  split_and!; [done..| |done]. apply dom_singleton_L.
Qed.

End web_search_facts.

Lemma web_search_error_dict_witness :
  ∃ d, (main.web_search "rocq" (server_start search_down_world ())).2
         = Ok (JObj d)
       ∧ (server_sse.web_search "rocq" (server_start search_down_world ())).2
         = Ok (JObj d)
       ∧ d = {[ "error" := JStr "401 Unauthorized" ]}
       ∧ dom d = {[ "error" ]}
       ∧ is_list (JObj d) = false.
Proof.
  apply (web_search_error_dict "rocq" (server_start search_down_world ())
           (Exn true "401 Unauthorized")); reflexivity.
Defined.

(** * Further facts about the Schema Sanitizer *)

(** At the root of a dict schema, [clean_schema] removes the key [title]
    and nothing else, and it leaves the value of every key other than
    [properties] exactly as it was, titles inside it included. *)
Theorem clean_schema_root_frame (d d' : gmap string json) :
  clean_schema (JObj d) = JObj d' →
  dom d' = dom d ∖ {[ "title" ]}
  ∧ ∀ k, k ≠ "title" → k ≠ "properties" → d' !! k = d !! k.
Proof.
  destruct (clean_schema_cases d)
    as [[Hp ->]|[(v & Hp & Hv & ->)|(props & Hp & ->)]]; intros [= <-].
  - split; [by rewrite dom_delete_L|]. intros k Hk _. by rewrite lookup_delete_ne.
  - split; [by rewrite dom_delete_L|]. intros k Hk _. by rewrite lookup_delete_ne.
  - split.
    + rewrite dom_insert_L, dom_delete_L.
      assert ("properties" ∈ dom d) as Hin by (apply elem_of_dom; by eexists).
      apply set_eq. intros k.
      rewrite elem_of_union, elem_of_singleton, !elem_of_difference,
        elem_of_singleton.
      split; [intros [->|?]; [by split|done]|by right].
    + intros k Hk Hk'. by rewrite lookup_insert_ne, lookup_delete_ne.
Qed.

Lemma clean_schema_root_frame_witness :
  dom ({[ "type" := JStr "string" ]} : gmap string json)
    = dom ({[ "type" := JStr "string"; "title" := JStr "City" ]}
             : gmap string json) ∖ {[ "title" ]}
  ∧ ∀ k, k ≠ "title" → k ≠ "properties" →
         ({[ "type" := JStr "string" ]} : gmap string json) !! k
         = ({[ "type" := JStr "string"; "title" := JStr "City" ]}
              : gmap string json) !! k.
Proof.
  apply (clean_schema_root_frame
           {[ "type" := JStr "string"; "title" := JStr "City" ]}
           {[ "type" := JStr "string" ]}).
  compute_eq.
Defined.

(** Cleaning commutes with going to a parameter's schema: the sub-schema
    found in the cleaned schema along a chain of parameter names is the
    cleaned sub-schema found in the original along the same chain, and
    there is one exactly when there was one. *)
Theorem schema_at_clean_schema (path : list string) (s : json) :
  schema_at path (clean_schema s) = clean_schema <$> schema_at path s.
Proof.
  revert s. induction path as [|name rest IH]; intros s; [done|].
  destruct s as [| | | | | |d]; try done. simpl.
  destruct (clean_schema_cases d)
    as [[Hp ->]|[(v & Hp & Hv & ->)|(props & Hp & ->)]].
  - by rewrite lookup_delete_ne, Hp.
  - rewrite lookup_delete_ne, Hp by done. by destruct v.
  - rewrite Hp, lookup_insert_eq, lookup_fmap.
    destruct (props !! name) as [v|]; [|done]. simpl. apply IH.
Qed.

(** A schema that [clean_schema] leaves as it is has parameters that
    [clean_schema] leaves as they are. *)
Lemma clean_schema_fixed_parameter d props name v :
  clean_schema (JObj d) = JObj d →
  d !! "properties" = Some (JObj props) →
  props !! name = Some v →
  clean_schema v = v.
Proof.
  intros Hfix Hp Hname.
  destruct (clean_schema_cases d)
    as [[Hp' _]|[(v' & Hp' & Hv' & _)|(props' & Hp' & Hclean)]];
    [congruence|by simplify_eq|].
  rewrite Hp in Hp'. injection Hp' as <-.
  rewrite Hclean in Hfix.
  apply (f_equal (λ j, match j with
                       | JObj m => m !! "properties"
                       | _ => None
                       end)) in Hfix.
  cbv beta iota in Hfix. rewrite lookup_insert_eq, Hp in Hfix.
  apply (inj Some) in Hfix.
  apply (f_equal (λ j, match j with
                       | JObj m => m !! name
                       | _ => None
                       end)) in Hfix.
  cbv beta iota in Hfix. rewrite lookup_fmap, Hname in Hfix.
  by injection Hfix.
Qed.

(** [clean_schema] changes a schema exactly when some schema on a chain of
    [properties] entries has a [title] key: it is the identity on the
    schemas that have none, and on no other. *)
Theorem clean_schema_fixed_iff (s : json) :
  clean_schema s = s
  ↔ ∀ path d, schema_at path s = Some (JObj d) → d !! "title" = None.
Proof.
  split.
  - intros Hfix path. revert s Hfix.
    induction path as [|name rest IH]; intros s Hfix d Hat.
    + injection Hat as ->. by eapply clean_schema_top_title.
    + destruct s as [| | | | | |d0]; try done. simpl in Hat.
      destruct (d0 !! "properties") as [[| | | | | |props]|] eqn:Hp; try done.
      destruct (props !! name) as [v|] eqn:Hname; [|done].
      apply (IH v); [|done].
      by eapply clean_schema_fixed_parameter.
  - induction s as [s IH] using json_depth_ind. intros Hfree.
    destruct s as [| | | | | |d]; try done.
    pose proof (Hfree [] d eq_refl) as Htitle.
    destruct (clean_schema_cases d)
      as [[Hp ->]|[(v & Hp & Hv & ->)|(props & Hp & ->)]].
    + by rewrite delete_id.
    + by rewrite delete_id.
    + rewrite delete_id by done. f_equal. apply insert_id. rewrite Hp.
      do 2 f_equal. symmetry. etrans; [|apply map_fmap_id].
      apply map_fmap_ext. intros k v Hk. simpl. apply IH.
      * apply json_depth_lookup in Hp, Hk. lia.
      * intros path d' Hat. apply (Hfree (k :: path)). simpl.
        by rewrite Hp, Hk.
Qed.

(** * Further facts about the Tool Descriptor Translator *)

Lemma convert_loop_Ok G mcp_tools gemini_tools result :
  convert_loop G mcp_tools gemini_tools = Ok result →
  Forall (accepted G) mcp_tools.
Proof.
  revert gemini_tools. induction mcp_tools as [|tool rest IH];
    intros gemini_tools; [by constructor|]. simpl.
  destruct (convert_mcp_tool G tool) as [group|e] eqn:Hrun; [|done]. simpl.
  intros Hrest. constructor; [|by eapply IH].
  apply convert_mcp_tool_accepted_iff. by rewrite Hrun.
Qed.

(** What the translation of a tool that the library does not accept
    raises: the error of the first step that fails. *)
Lemma convert_mcp_tool_not_accepted G tool :
  ¬ accepted G tool →
  ∃ e,
    convert_mcp_tool G tool = Raise e
    ∧ ((mcp.description tool = None
        ∧ e = TypeError "unsupported operand type(s) for +: 'NoneType' and 'str'")
       ∨ (∃ desc,
            mcp.description tool = Some desc
            ∧ FunctionDeclaration_raises G (mcp.name tool)
                (desc +:+ RETURN_TYPE_SUFFIX)
                (clean_schema (mcp.inputSchema tool)) = Some e)
       ∨ (∃ desc,
            mcp.description tool = Some desc
            ∧ FunctionDeclaration_raises G (mcp.name tool)
                (desc +:+ RETURN_TYPE_SUFFIX)
                (clean_schema (mcp.inputSchema tool)) = None
            ∧ Tool_raises G [declaration_of tool desc] = Some e)).
Proof.
  intros Hnot.
  destruct (mcp.description tool) as [desc|] eqn:Hdesc.
  - destruct (FunctionDeclaration_raises G (mcp.name tool)
                (desc +:+ RETURN_TYPE_SUFFIX)
                (clean_schema (mcp.inputSchema tool))) as [e|] eqn:Hdecl.
    + exists e. split; [|right; left; by exists desc].
      cbv [convert_mcp_tool new_FunctionDeclaration str_add mbind
           outcome_bind].
      rewrite Hdesc. cbv beta iota. by rewrite Hdecl.
    + destruct (Tool_raises G [declaration_of tool desc]) as [e|] eqn:Htool.
      * exists e. split; [|do 2 right; by exists desc].
        cbv [convert_mcp_tool new_FunctionDeclaration new_Tool str_add mbind
             outcome_bind].
        rewrite Hdesc. cbv beta iota. rewrite Hdecl.
        fold (declaration_of tool desc). by rewrite Htool.
      * destruct Hnot. by exists desc.
  - eexists. split; [by apply convert_mcp_tool_undescribed|by left].
Qed.

(** The translation is all or nothing: it returns exactly when the
    library accepts every tool.  Otherwise it returns no group at all and
    raises what the first tool that is not accepted makes it raise,
    whatever stands after that tool: the [TypeError] of the string
    concatenation for a tool without description, raised before any
    constructor is called, else the error of the constructor of the
    declaration, else that of the constructor of the group. *)
Theorem convert_mcp_tools_to_gemini_all_or_nothing (G : GeminiLibrary)
    (mcp_tools : list mcp.Tool) :
  (Forall (accepted G) mcp_tools ↔
   is_Ok (convert_mcp_tools_to_gemini G mcp_tools))
  ∧ (∀ before tool after,
       mcp_tools = before ++ tool :: after →
       Forall (accepted G) before →
       ¬ accepted G tool →
       ∃ e,
         convert_mcp_tools_to_gemini G mcp_tools = Raise e
         ∧ ((mcp.description tool = None
             ∧ e = TypeError
                     "unsupported operand type(s) for +: 'NoneType' and 'str'")
            ∨ (∃ desc,
                 mcp.description tool = Some desc
                 ∧ FunctionDeclaration_raises G (mcp.name tool)
                     (desc +:+ RETURN_TYPE_SUFFIX)
                     (clean_schema (mcp.inputSchema tool)) = Some e)
            ∨ (∃ desc,
                 mcp.description tool = Some desc
                 ∧ FunctionDeclaration_raises G (mcp.name tool)
                     (desc +:+ RETURN_TYPE_SUFFIX)
                     (clean_schema (mcp.inputSchema tool)) = None
                 ∧ Tool_raises G [declaration_of tool desc] = Some e))).
Proof.
  split.
  - split.
    + intros Hall.
      destruct (convert_loop_accepted G mcp_tools [] Hall)
        as (groups & Hrun & _).
      unfold convert_mcp_tools_to_gemini. by rewrite Hrun.
    + unfold convert_mcp_tools_to_gemini.
      destruct (convert_loop G mcp_tools []) as [result|e] eqn:Hrun; [|done].
      intros _. by eapply convert_loop_Ok.
  - intros before tool after -> Hbefore Hnot.
    destruct (convert_mcp_tool_not_accepted G tool Hnot) as (e & Hrun & He).
    exists e. split; [|done].
    by apply convert_loop_raises.
Qed.

(** * Further facts about [process_query] *)

Section conversation_facts.
Context {O : Outside}.
Implicit Types (σ : state O) (evs : list (event O)).

Lemma process_part_events tools query part final_text σ :
  ∃ evs,
    log (process_part tools (user_prompt_content query) part final_text σ).1
      = log σ ++ evs
    ∧ self (process_part tools (user_prompt_content query) part final_text σ).1
      = self σ
    ∧ part_events tools query (session (self σ)) part evs.
Proof.
  unfold part_events, requested_call.
  destruct (genai.function_call part) as [fc|] eqn:Hfc; simpl.
  - rewrite (process_part_call_run _ _ _ _ _ _ Hfc), tool_response_text_run.
    destruct (session (self σ)) as [s|]; simpl.
    + destruct (session_call_tool O s _ _ (world σ)) as [w r]. simpl.
      destruct (result_text r) as [text|e] eqn:Htext.
      * rewrite follow_up_run. simpl. rewrite <-app_assoc.
        eexists. split_and!; [done..|]. exists r. rewrite Htext. by eexists.
      * simpl. eexists. split_and!; [done..|]. exists r. by rewrite Htext.
    + rewrite follow_up_run. simpl. eexists. split_and!; [done..|]. by eexists.
  - rewrite (process_part_text_run _ _ _ _ _ Hfc). simpl.
    exists []. by rewrite app_nil_r.
Qed.

(** The events of the loop over the parts are those of the parts, one
    after the other, up to the part whose handling raised. *)
Lemma parts_loop_events tools query parts final_text σ :
  ∃ evss,
    log (for_each (process_part tools (user_prompt_content query))
           parts final_text σ).1 = log σ ++ mjoin evss
    ∧ self (for_each (process_part tools (user_prompt_content query))
              parts final_text σ).1 = self σ
    ∧ Forall2 (part_events tools query (session (self σ)))
        (take (length evss) parts) evss
    ∧ (is_Ok (for_each (process_part tools (user_prompt_content query))
                parts final_text σ).2 → length evss = length parts).
Proof.
  revert final_text σ.
  induction parts as [|part parts IH]; intros final_text σ.
  - exists []. simpl. rewrite app_nil_r. by split_and!.
  - simpl for_each. rewrite bind_run.
    destruct (process_part_events tools query part final_text σ)
      as (evs1 & Hlog1 & Hself1 & Hpart).
    destruct (process_part _ _ part final_text σ) as [σ1 [acc|e]];
      simpl in Hlog1, Hself1.
    + destruct (IH acc σ1) as (evss & Hlog & Hself & Hall & Hlen).
      exists (evs1 :: evss). simpl.
      rewrite Hlog, Hlog1, Hself, Hself1, <-app_assoc.
      split_and!; [done..| |].
      * constructor; [done|]. by rewrite <-Hself1.
      * intros Hok. by rewrite Hlen.
    + exists [evs1]. simpl. rewrite app_nil_r.
      split_and!; [done..| |done]. rewrite take_0. by repeat constructor.
Qed.

(** The three ways [process_query] can go, with its events: it stops
    before any request for want of function declarations; the first request
    raises; or the first request is answered and the parts of the answer
    are handled in turn. *)
Lemma process_query_shape query σ :
  self (process_query query σ).1 = self σ
  ∧ ((function_declarations (self σ) = None
      ∧ new_events (process_query query) σ = [])
     ∨ (∃ tools e,
          new_events (process_query query) σ
            = [EvGenerate tools [user_prompt_content query] (Raise e)])
     ∨ (∃ tools response evss,
          new_events (process_query query) σ
            = EvGenerate tools [user_prompt_content query] (Ok response)
                :: mjoin evss
          ∧ Forall2 (part_events tools query (session (self σ)))
              (take (length evss) (all_parts response)) evss)).
Proof.
  pose proof (process_query_run query σ) as Hrun.
  destruct (function_declarations (self σ)) as [tools|] eqn:Hdecls.
  - simpl in Hrun.
    destruct (model_generate_content O tools _ (world σ))
      as [w [response|e]] eqn:Hgen; simpl in Hrun.
    + set (σ1 := {| world := w |}) in Hrun.
      destruct (parts_loop_events tools query (all_parts response) [] σ1)
        as (evss & Hlog & Hself & Hall & _).
      split.
      * rewrite Hrun.
        by destruct (for_each _ (all_parts response) [] σ1) as [σ2 [texts|e]].
      * right; right. exists tools, response, evss. split; [|done].
        apply new_events_extend. rewrite Hrun.
        destruct (for_each _ (all_parts response) [] σ1) as [σ2 [texts|e]];
          simpl in *; by rewrite Hlog, <-app_assoc.
    + split; [by rewrite Hrun|]. right; left. exists tools, e.
      apply new_events_extend. by rewrite Hrun.
  - split; [by rewrite Hrun|]. left. split; [done|].
    apply new_events_extend. rewrite Hrun. simpl. by rewrite app_nil_r.
Qed.

Lemma calls_answered_app query evs1 evs2 :
  calls_answered query evs1 → calls_answered query evs2 →
  calls_answered query (evs1 ++ evs2).
Proof.
  intros H1 H2 i s name args r text [Hi|[Hlen Hi]]%lookup_app_Some Htext.
  - destruct (H1 _ _ _ _ _ _ Hi Htext) as (tools & response & Hnext).
    exists tools, response. by apply lookup_app_l_Some.
  - destruct (H2 _ _ _ _ _ _ Hi Htext) as (tools & response & Hnext).
    exists tools, response. rewrite lookup_app_r by lia.
    by replace (S i - length evs1) with (S (i - length evs1)) by lia.
Qed.

Lemma part_events_calls_answered tools query sess part evs :
  part_events (O:=O) tools query sess part evs → calls_answered query evs.
Proof.
  unfold part_events.
  destruct (requested_call part) as [[name args]|]; [|by intros -> [|?] ?????].
  destruct sess as [s|].
  - intros [r Hr]. destruct (result_text r) as [text|e] eqn:Htext.
    + destruct Hr as [response ->].
      intros [|[|i]] s' name' args' r' text'; simpl; [|done..].
      intros [= <- <- <- <-] Htext'. rewrite Htext in Htext'.
      injection Htext' as <-. by eexists _, _.
    + subst evs. intros [|i] s' name' args' r' text'; simpl; [|done].
      intros [= <- <- <- <-] Htext'. congruence.
  - intros [response ->]. by intros [|[|i]] ??????.
Qed.

Lemma parts_events_calls_answered tools query sess parts evss :
  Forall2 (part_events (O:=O) tools query sess) parts evss →
  calls_answered query (mjoin evss).
Proof.
  induction 1 as [|part evs parts evss Hpart _ IH]; simpl.
  - by intros [|?] ??????.
  - apply calls_answered_app; [by eapply part_events_calls_answered|done].
Qed.

(** Every tool call [process_query] makes is answered to the model at
    once: the next event is the follow-up request whose function response
    is the text made of the call's outcome, which is [json.dumps(result)]
    for a list or dict, [str(result)] otherwise, and ["Tool error: "] with
    the error's text when the call or the conversion raised an
    [Exception]. *)
Theorem process_query_calls_answered (query : string) (σ : state O) :
  calls_answered query (new_events (process_query query) σ).
Proof.
  destruct (process_query_shape query σ)
    as [_ [[_ ->]|[(tools & e & ->)|(tools & response & evss & -> & Hall)]]].
  - by intros [|?] ??????.
  - by intros [|[|?]] ??????.
  - apply (calls_answered_app query [_]).
    + by intros [|[|?]] ??????.
    + by eapply parts_events_calls_answered.
Qed.

Lemma part_events_requests tools query sess part evs :
  part_events (O:=O) tools query sess part evs →
  ∀ contents, contents ∈ generate_requests evs →
    ∃ name args text,
      requested_call part = Some (name, args)
      ∧ contents = follow_up query name args text.
Proof.
  unfold part_events.
  destruct (requested_call part) as [[name args]|];
    [|intros -> contents Hin; by apply elem_of_nil in Hin].
  destruct sess as [s|].
  - intros [r Hr]. destruct (result_text r) as [text|e].
    + destruct Hr as [response ->]. simpl.
      intros contents ->%list_elem_of_singleton. by eexists _, _, _.
    + subst evs. simpl. intros contents Hin. by apply elem_of_nil in Hin.
  - intros [response ->]. simpl.
    intros contents ->%list_elem_of_singleton. by eexists _, _, _.
Qed.

(** Each function call is answered on its own: every request
    [process_query] makes after the first one consists of exactly three
    turns, the user's query, one call that a part of the original response
    asks for, and the response to that call.  The exchanges of the other
    calls of the same query are never part of it. *)
Theorem process_query_follow_ups_isolated (query : string) (σ : state O)
    (tools : list genai.Tool) (response : genai.Response)
    (rest : list (event O)) :
  new_events (process_query query) σ
    = EvGenerate tools [user_prompt_content query] (Ok response) :: rest →
  ∀ contents, contents ∈ generate_requests rest →
    ∃ name args text,
      (name, args) ∈ requested_calls response
      ∧ contents = follow_up query name args text.
Proof.
  intros Hevents contents Hin.
  destruct (process_query_shape query σ)
    as [_ [[_ Hnew]|[(tools' & e & Hnew)|(tools' & response' & evss & Hnew & Hall)]]];
    rewrite Hnew in Hevents; try done.
  injection Hevents as -> -> <-.
  unfold generate_requests in Hin.
  apply list_elem_of_omap in Hin as (ev & Hev & Hcontents).
  apply list_elem_of_join in Hev as (evs & Hev & Hevs).
  apply list_elem_of_lookup in Hevs as [j Hj].
  destruct (Forall2_lookup_r _ _ _ _ _ Hall Hj) as (part & Hpart & Hshape).
  destruct (part_events_requests _ _ _ _ _ Hshape contents)
    as (name & args & text & Hcall & ->).
  { apply list_elem_of_omap. by exists ev. }
  exists name, args, text. split; [|done].
  apply list_elem_of_omap. exists part. split; [|done].
  apply lookup_take_Some in Hpart as [Hpart _].
  by eapply list_elem_of_lookup_2.
Qed.

Lemma part_events_kind tools query sess part evs :
  part_events (O:=O) tools query sess part evs →
  Forall (λ ev, is_conversation_event ev = true) evs.
Proof.
  unfold part_events.
  destruct (requested_call part) as [[name args]|]; [|by intros ->].
  destruct sess as [s|].
  - intros [r Hr]. destruct (result_text r) as [text|e].
    + destruct Hr as [response ->]. by repeat constructor.
    + subst evs. by repeat constructor.
  - intros [response ->]. by repeat constructor.
Qed.

Lemma process_query_conversation query σ :
  Forall (λ ev, is_conversation_event ev = true)
    (new_events (process_query query) σ)
  ∧ self (process_query query σ).1 = self σ.
Proof.
  destruct (process_query_shape query σ)
    as [Hself [[_ ->]|[(tools & e & ->)|(tools & response & evss & -> & Hall)]]];
    (split; [|done]); [done|by repeat constructor|].
  constructor; [done|].
  apply Forall_join. eapply Forall2_Forall_r; [done|].
  apply Forall_forall. intros part _ evs. apply part_events_kind.
Qed.

(** The log only grows. *)
Lemma process_query_log query σ :
  log (process_query query σ).1
  = log σ ++ new_events (process_query query) σ.
Proof.
  assert (∃ evs, log (process_query query σ).1 = log σ ++ evs) as [evs Hlog].
  { rewrite process_query_run.
    destruct (function_declarations (self σ)) as [tools|];
      [|exists []; simpl; by rewrite app_nil_r].
    simpl.
    destruct (model_generate_content O tools _ (world σ))
      as [w [response|e]]; simpl; [|by eexists].
    set (σ1 := {| world := w |}).
    destruct (parts_loop_events tools query (all_parts response) [] σ1)
      as (evss & Hlog & _).
    destruct (for_each _ (all_parts response) [] σ1) as [σ2 [texts|e]];
      simpl in *; rewrite Hlog, <-app_assoc; by eexists. }
  by rewrite (new_events_extend _ _ _ Hlog).
Qed.

(** [process_query] only talks: it adds its events to the log and removes
    none, its events are requests to the model and tool calls, never
    entering or leaving a context, initialising the session or listing
    tools; and it leaves the attributes of the client as they are. *)
Theorem process_query_only_converses (query : string) (σ : state O) :
  log (process_query query σ).1 = log σ ++ new_events (process_query query) σ
  ∧ Forall (λ ev, is_conversation_event ev = true)
      (new_events (process_query query) σ)
  ∧ self (process_query query σ).1 = self σ.
Proof.
  split; [apply process_query_log|apply process_query_conversation].
Qed.

Lemma parts_loop_text_only tools query parts final_text σ :
  omap requested_call parts = [] →
  for_each (process_part tools (user_prompt_content query)) parts final_text σ
  = (σ, Ok (final_text ++ (genai.text <$> parts))).
Proof.
  revert final_text. induction parts as [|part parts IH]; intros final_text.
  - intros _. simpl. by rewrite app_nil_r.
  - rewrite omap_cons_option_list. unfold requested_call at 1.
    destruct (genai.function_call part) as [fc|] eqn:Hfc; [done|]. simpl.
    intros Hrest. rewrite bind_run, (process_part_text_run _ _ _ _ _ Hfc).
    rewrite (IH _ Hrest). by rewrite <-app_assoc.
Qed.

(** When the model answers the query with text only (no part of the
    response asks for a call), [process_query] makes that one request and
    nothing else, no tool call and no second request, and returns the texts
    of the parts, in order, joined by newlines. *)
Theorem process_query_text_only (query : string) (σ : state O)
    (tools : list genai.Tool) (w : World O) (response : genai.Response) :
  function_declarations (self σ) = Some tools →
  model_generate_content O tools [user_prompt_content query] (world σ)
    = (w, Ok response) →
  requested_calls response = [] →
  process_query query σ
  = ({| world := w;
        log := log σ ++ [EvGenerate tools [user_prompt_content query]
                           (Ok response)];
        self := self σ |},
     Ok (String.concat newline (genai.text <$> all_parts response))).
Proof.
  intros Hdecls Hgen Hnone.
  rewrite process_query_run, Hdecls. simpl. rewrite Hgen. simpl.
  by rewrite (parts_loop_text_only _ _ _ _ _ Hnone).
Qed.

End conversation_facts.

(** * Further facts about the Session Manager *)

Section connect_facts.
Context {O : Outside}.
Implicit Types (σ : state O) (evs : list (event O)).

(** [connect_to_sse_server] makes its four calls in a fixed order, enter
    the stream context, enter the session context, initialise the session,
    list the tools, each in the world the call before it left, and stops
    at the first one that raises, raising that exception.  When the four
    calls return, its outcome is that of translating the tools that this
    [list_tools] call returned.  It never calls a tool or the model. *)
Theorem connect_to_sse_server_trace (url : string) (σ : state O) :
  let evs := new_events (connect_to_sse_server url) σ in
  let r := (connect_to_sse_server url σ).2 in
  let w := world (connect_to_sse_server url σ).1 in
  match aenter_sse_client O url (world σ) with
  | (w1, Raise e) =>
      evs = [EvEnter (sse_client url) (Some e)] ∧ r = Raise e ∧ w = w1
  | (w1, Ok streams) =>
      match aenter_ClientSession O streams w1 with
      | (w2, Raise e) =>
          evs = [EvEnter (sse_client url) None;
                 EvEnter (ClientSession streams) (Some e)]
          ∧ r = Raise e ∧ w = w2
      | (w2, Ok s) =>
          match session_initialize O s w2 with
          | (w3, Raise e) =>
              evs = [EvEnter (sse_client url) None;
                     EvEnter (ClientSession streams) None;
                     EvInitialize s (Some e)]
              ∧ r = Raise e ∧ w = w3
          | (w3, Ok _) =>
              match session_list_tools O s w3 with
              | (w4, Raise e) =>
                  evs = [EvEnter (sse_client url) None;
                         EvEnter (ClientSession streams) None;
                         EvInitialize s None;
                         EvListTools s (Some e)]
                  ∧ r = Raise e ∧ w = w4
              | (w4, Ok tools) =>
                  evs = [EvEnter (sse_client url) None;
                         EvEnter (ClientSession streams) None;
                         EvInitialize s None;
                         EvListTools s None]
                  ∧ r = (convert_mcp_tools_to_gemini (library O) tools
                           ≫= λ _, Ok ())
                  ∧ w = w4
              end
          end
      end
  end.
Proof.
  unfold new_events.
  cbv [connect_to_sse_server mbind M_bind set_self aenter_streams
       aenter_session session_do_initialize session_do_list_tools lift
       perform]. simpl.
  destruct (aenter_sse_client O url (world σ)) as [w1 [streams|e1]]; simpl.
  - destruct (aenter_ClientSession O streams w1) as [w2 [s|e2]]; simpl.
    + destruct (session_initialize O s w2) as [w3 [[]|e3]]; simpl.
      * destruct (session_list_tools O s w3) as [w4 [tools|e4]]; simpl.
        -- destruct (convert_mcp_tools_to_gemini (library O) tools)
             as [decls|e5]; simpl;
             rewrite <-!app_assoc, drop_app_length; by split_and!.
        -- by rewrite <-!app_assoc, drop_app_length.
      * by rewrite <-!app_assoc, drop_app_length.
    + by rewrite <-!app_assoc, drop_app_length.
  - by rewrite drop_app_length.
Qed.

(** From a client without function declarations, [connect_to_sse_server]
    returns exactly when it leaves the client with function declarations.
    The four calls then returned, each made in the world the call before
    it left; the client has the session and both contexts, and its
    declarations are the translation of the tools that the [list_tools]
    call of this connect returned.  A connect that raised leaves the
    client without declarations, whatever else it has set. *)
Theorem connect_to_sse_server_ready (url : string) (σ : state O) :
  function_declarations (self σ) = None →
  (is_Ok (connect_to_sse_server url σ).2
   ↔ is_Some (function_declarations (self (connect_to_sse_server url σ).1)))
  ∧ (is_Ok (connect_to_sse_server url σ).2 →
     ∃ w1 streams w2 s w3 w4 tools decls,
       aenter_sse_client O url (world σ) = (w1, Ok streams)
       ∧ aenter_ClientSession O streams w1 = (w2, Ok s)
       ∧ session_initialize O s w2 = (w3, Ok ())
       ∧ session_list_tools O s w3 = (w4, Ok tools)
       ∧ convert_mcp_tools_to_gemini (library O) tools = Ok decls
       ∧ world (connect_to_sse_server url σ).1 = w4
       ∧ self (connect_to_sse_server url σ).1
         = {| session := Some s;
              _streams_context := Some (sse_client url);
              _session_context := Some (ClientSession streams);
              function_declarations := Some decls |}).
Proof.
  intros Hnone.
  cbv [connect_to_sse_server mbind M_bind set_self aenter_streams
       aenter_session session_do_initialize session_do_list_tools lift
       perform]. simpl.
  destruct (aenter_sse_client O url (world σ)) as [w1 [streams|e1]]; simpl.
  - destruct (aenter_ClientSession O streams w1) as [w2 [s|e2]] eqn:Hsession;
      simpl.
    + destruct (session_initialize O s w2) as [w3 [[]|e3]] eqn:Hinit; simpl.
      * destruct (session_list_tools O s w3) as [w4 [tools|e4]] eqn:Hlist;
          simpl.
        -- destruct (convert_mcp_tools_to_gemini (library O) tools)
             as [decls|e5] eqn:Hconv; simpl.
           ++ split; [by split; [eexists|]|]. intros _.
              by exists w1, streams, w2, s, w3, w4, tools, decls.
           ++ rewrite Hnone. split; [|done]. by split; [|intros [? ?]].
        -- rewrite Hnone. split; [|done]. by split; [|intros [? ?]].
      * rewrite Hnone. split; [|done]. by split; [|intros [? ?]].
    + rewrite Hnone. split; [|done]. by split; [|intros [? ?]].
  - rewrite Hnone. split; [|done]. by split; [|intros [? ?]].
Qed.

End connect_facts.

(** * Facts about the Interactive Shell and the entry point *)

Section shell_facts.
Context {O : Outside} (S : StrOps).
Implicit Types (κ : console O) (σ : state O) (evs : list (event O)).

Lemma on_client_run {A} (c : M (state O) A) κ :
  on_client c κ
  = ({| client := (c (client κ)).1; shown := shown κ |}, (c (client κ)).2).
Proof. unfold on_client. by destruct (c (client κ)). Qed.

(** One turn of the loop on a line that is not the sentinel. *)
Lemma chat_turns_turn line stdin κ :
  ¬ is_exit S line →
  chat_turns S (line :: stdin) κ =
    match process_query (str_strip S line) (client κ) with
    | (σ, Ok response) =>
        chat_turns S stdin
          {| client := σ;
             shown := (shown κ ++ [prompt]) ++ [response_line response] |}
    | (σ, Raise e) => ({| client := σ; shown := shown κ ++ [prompt] |}, Raise e)
    end.
Proof.
  intros Hline. simpl. unfold mbind, M_bind. simpl.
  rewrite decide_False by done. rewrite on_client_run. simpl.
  by destruct (process_query (str_strip S line) (client κ)) as [σ [response|e]].
Qed.

Lemma chat_turns_exit line stdin κ :
  is_exit S line →
  chat_turns S (line :: stdin) κ
  = ({| client := client κ; shown := (shown κ ++ [prompt]) ++ [exit_notice] |},
     Ok stdin).
Proof.
  intros Hline. simpl. unfold mbind, M_bind. simpl. by rewrite decide_True.
Qed.






(** What the loop does to the client: it only converses. *)
Lemma chat_turns_conversation stdin κ :
  ∃ evs,
    log (client (chat_turns S stdin κ).1) = log (client κ) ++ evs
    ∧ Forall (λ ev, is_conversation_event ev = true) evs
    ∧ self (client (chat_turns S stdin κ).1) = self (client κ).
Proof.
  revert κ. induction stdin as [|line stdin IH]; intros κ.
  - exists []. simpl. by rewrite app_nil_r.
  - destruct (decide (str_lower S (str_strip S line) = "exit")) as [Hline|Hline].
    + rewrite (chat_turns_exit _ _ _ Hline). exists []. simpl.
      by rewrite app_nil_r.
    + rewrite (chat_turns_turn _ _ _ Hline).
      pose proof (process_query_log (str_strip S line) (client κ)) as Hlog.
      destruct (process_query_conversation (str_strip S line) (client κ))
        as [Hkind Hself].
      destruct (process_query _ (client κ)) as [σ [response|e]];
        simpl in Hlog, Hself.
      * destruct (IH {| client := σ;
                        shown := (shown κ ++ [prompt])
                                   ++ [response_line response] |})
          as (evs & Hlog' & Hkind' & Hself').
        simpl in *. eexists. rewrite Hlog', Hlog, <-app_assoc, Hself', Hself.
        split_and!; [done| |done]. by apply Forall_app.
      * simpl. by eexists.
Qed.

Lemma chat_loop_conversation stdin κ :
  ∃ evs,
    log (client (chat_loop S stdin κ).1) = log (client κ) ++ evs
    ∧ Forall (λ ev, is_conversation_event ev = true) evs
    ∧ self (client (chat_loop S stdin κ).1) = self (client κ).
Proof.
  unfold chat_loop, mbind, M_bind. simpl.
  apply (chat_turns_conversation stdin
           {| client := client κ; shown := shown κ ++ [banner] |}).
Qed.

Local Ltac entered_contexts Hin :=
  simpl in Hin;
  repeat match type of Hin with
         | _ ∈ _ :: _ =>
             apply elem_of_cons in Hin as [Hin|Hin];
             [first [discriminate Hin
                    |injection Hin as -> ->; simpl; by auto]|]
         end;
  by apply elem_of_nil in Hin.

(** What [connect_to_sse_server] does to the client: its events are not
    exits or conversation, and every context it entered, or tried to, is
    one the client has afterwards. *)
Lemma connect_entered url σ :
  ∃ evs,
    log (connect_to_sse_server url σ).1 = log σ ++ evs
    ∧ Forall (λ ev, match ev with
                    | EvExit _ _ | EvCallTool _ _ _ _ | EvGenerate _ _ _ => False
                    | _ => True
                    end) evs
    ∧ ∀ c r, EvEnter c r ∈ evs →
        _streams_context (self (connect_to_sse_server url σ).1) = Some c
        ∨ _session_context (self (connect_to_sse_server url σ).1) = Some c.
Proof.
  cbv [connect_to_sse_server mbind M_bind set_self aenter_streams
       aenter_session session_do_initialize session_do_list_tools lift
       perform]. simpl.
  destruct (aenter_sse_client O url (world σ)) as [w1 [streams|e1]]; simpl.
  - destruct (aenter_ClientSession O streams w1) as [w2 [s|e2]]; simpl.
    + destruct (session_initialize O s w2) as [w3 [[]|e3]]; simpl.
      * destruct (session_list_tools O s w3) as [w4 [tools|e4]]; simpl.
        -- destruct (convert_mcp_tools_to_gemini (library O) tools)
             as [decls|e5]; simpl;
             rewrite <-!app_assoc; eexists; (split; [reflexivity|]);
             (split; [repeat (apply Forall_cons; split; [exact I|]); by apply Forall_nil|]);
             intros c r Hin; entered_contexts Hin.
        -- rewrite <-!app_assoc; eexists; (split; [reflexivity|]);
             (split; [repeat (apply Forall_cons; split; [exact I|]); by apply Forall_nil|]);
             intros c r Hin; entered_contexts Hin.
      * rewrite <-!app_assoc; eexists; (split; [reflexivity|]);
          (split; [repeat (apply Forall_cons; split; [exact I|]); by apply Forall_nil|]);
          intros c r Hin; entered_contexts Hin.
    + rewrite <-!app_assoc; eexists; (split; [reflexivity|]);
        (split; [repeat (apply Forall_cons; split; [exact I|]); by apply Forall_nil|]);
        intros c r Hin; entered_contexts Hin.
  - eexists; (split; [reflexivity|]); (split; [repeat (apply Forall_cons; split; [exact I|]); by apply Forall_nil|]);
      intros c r Hin; entered_contexts Hin.
Qed.

(** [cleanup] only exits. *)
Lemma cleanup_only_exits σ :
  Forall (λ ev, ∃ c r, ev = EvExit c r) (new_events cleanup σ).
Proof.
  unfold new_events. rewrite cleanup_run.
  destruct (_session_context (self σ)) as [sc|] eqn:Hsc;
    destruct (_streams_context (self σ)) as [tc|] eqn:Htc;
    rewrite ?aexit_context_run; simpl;
    try (destruct (aexit O sc (world σ)) as [w1 [[]|e1]]; simpl);
    rewrite ?Htc, ?aexit_context_run; simpl;
    try (destruct (aexit O tc _) as [w2 [[]|e2]]; simpl);
    rewrite <-?app_assoc, ?drop_app_length, ?drop_all;
    repeat (apply Forall_cons; split; [by eexists _, _|]);
    by apply Forall_nil.
Qed.

Lemma MCPClient_init_key k :
  k ≠ "" → MCPClient_init (O:=O) (Some k) = Ok MCPClient_new.
Proof. by destruct k. Qed.

(** [main], run with a server URL and an API key: the client is made
    anew, the body (connect, then the loop) runs, and [cleanup] runs on the
    state the body left, its exception replacing the outcome of the body. *)
Lemma main_run a url more k stdin κ :
  k ≠ "" →
  ∃ σ1 r1 evs_chat shown1,
    let σ0 := {| world := world (client κ); log := log (client κ);
                 self := MCPClient_new |} in
    log σ1 = log (connect_to_sse_server url σ0).1 ++ evs_chat
    ∧ Forall (λ ev, is_conversation_event ev = true) evs_chat
    ∧ self σ1 = self (connect_to_sse_server url σ0).1
    ∧ main S (a :: url :: more) (Some k) stdin κ
      = ({| client := (cleanup σ1).1; shown := shown1 |},
         match (cleanup σ1).2 with
         | Ok _ => r1
         | Raise e => Raise e
         end).
Proof.
  intros Hk. unfold main, construct_client, try_finally, mbind, M_bind.
  rewrite !on_client_run. rewrite (MCPClient_init_key _ Hk). simpl.
  set (σ0 := {| world := world (client κ) |}).
  destruct (connect_to_sse_server url σ0) as [σc [[]|e]] eqn:Hconnect; simpl.
  - destruct (chat_loop_conversation stdin {| client := σc; shown := shown κ |})
      as (evs & Hlog & Hkind & Hself).
    destruct (chat_loop S stdin _) as [κ1 r] eqn:Hchat. simpl in *.
    exists (client κ1), (r ≫= λ _, Ok ()), evs, (shown κ1).
    split_and!; [done..|].
    destruct r as [rest|e]; simpl; rewrite on_client_run; simpl;
      by destruct (cleanup (client κ1)) as [σ2 [[]|e2]].
  - exists σc, (Raise e), [], (shown κ). rewrite app_nil_r.
    split_and!; [done..|]. rewrite on_client_run. simpl.
    by destruct (cleanup σc) as [σ2 [[]|e2]].
Qed.

(** [main] releases what it acquired: in a run of [main] in which no
    [__aexit__] raised, every context that was entered, or whose entering
    was tried, is exited later in the run, whether the body returned, the
    connection failed partway or the loop raised. *)
Theorem main_exits_entered_contexts (a url : string) (more : list string)
    (k : string) (stdin : list string) (κ : console O) :
  k ≠ "" →
  (∀ c r, EvExit c r
            ∈ console_events (main S (a :: url :: more) (Some k) stdin) κ →
          r = None) →
  ∀ i c r,
    console_events (main S (a :: url :: more) (Some k) stdin) κ !! i
      = Some (EvEnter c r) →
    ∃ j, i < j
         ∧ console_events (main S (a :: url :: more) (Some k) stdin) κ !! j
           = Some (EvExit c None).
Proof.
  intros Hk.
  destruct (main_run a url more k stdin κ Hk)
    as (σ1 & r1 & evs_chat & shown1 & Hlog1 & Hkind & Hself1 & Hmain).
  set (σ0 := {| world := world (client κ) |}) in *.
  destruct (connect_entered url σ0) as (evs_conn & Hlogc & Hkindc & Hentered).
  destruct (cleanup_events σ1)
    as (evs_clean & Hlog2 & _ & Hlen & _ & Hall & Hraise).
  assert (console_events (main S (a :: url :: more) (Some k) stdin) κ
            = (evs_conn ++ evs_chat) ++ evs_clean) as ->.
  { unfold console_events. rewrite Hmain. simpl.
    rewrite Hlog2, Hlog1, Hlogc. simpl.
    by rewrite <-!app_assoc, drop_app_length. }
  intros Hexits i c r Hi.
  assert (evs_conn !! i = Some (EvEnter c r)) as Hconn.
  { apply lookup_app_Some in Hi as [Hi|[_ Hi]].
    - apply lookup_app_Some in Hi as [Hi|[_ Hi]]; [done|].
      apply list_elem_of_lookup_2 in Hi.
      rewrite Forall_forall in Hkind. by apply Hkind in Hi.
    - apply list_elem_of_lookup_2 in Hi.
      pose proof (cleanup_only_exits σ1) as Hexit.
      rewrite (new_events_extend _ _ _ Hlog2), Forall_forall in Hexit.
      by destruct (Hexit _ Hi) as (? & ? & ?). }
  assert (is_Ok (cleanup σ1).2) as Hok.
  { destruct (cleanup σ1).2 as [[]|e] eqn:Hout; [done|].
    destruct (proj1 (Hraise e) eq_refl) as [c' Hlast].
    assert (EvExit c' (Some e) ∈ (evs_conn ++ evs_chat) ++ evs_clean) as Hin.
    { apply elem_of_app. right. by eapply last_Some_elem_of. }
    by apply Hexits in Hin. }
  assert (c ∈ exits evs_clean) as Hc.
  { rewrite (Hall Hok), Hself1.
    destruct (Hentered c r) as [->| ->];
      [by eapply list_elem_of_lookup_2|..];
      apply elem_of_app; [right|left]; apply list_elem_of_here. }
  apply list_elem_of_omap in Hc as (ev & Hev & Hexit).
  destruct ev as [? ?|c0 r0|? ?|? ?|? ? ? ?|? ? ?]; try done.
  injection Hexit as ->.
  apply list_elem_of_lookup in Hev as [j Hj].
  assert (r0 = None) as ->.
  { apply (Hexits c). apply elem_of_app. right.
    by eapply list_elem_of_lookup_2. }
  exists (length (evs_conn ++ evs_chat) + j). split.
  - apply lookup_lt_Some in Hconn. rewrite length_app. lia.
  - rewrite lookup_app_r by lia.
    by replace (length (evs_conn ++ evs_chat) + j
                - length (evs_conn ++ evs_chat)) with j by lia.
Qed.

(** An error of the teardown is the one the caller of [main] gets: when
    the last thing [main] did is an [__aexit__] that raised, [main] raises
    that exception, also when the connection or the loop had already
    raised another one, which is then lost. *)
Theorem main_teardown_error_supersedes (a url : string) (more : list string)
    (k : string) (stdin : list string) (κ : console O)
    (c : context_manager (Streams O)) (e : exn) :
  k ≠ "" →
  last (console_events (main S (a :: url :: more) (Some k) stdin) κ)
    = Some (EvExit c (Some e)) →
  (main S (a :: url :: more) (Some k) stdin κ).2 = Raise e.
Proof.
  intros Hk.
  destruct (main_run a url more k stdin κ Hk)
    as (σ1 & r1 & evs_chat & shown1 & Hlog1 & Hkind & Hself1 & Hmain).
  set (σ0 := {| world := world (client κ) |}) in *.
  destruct (connect_entered url σ0) as (evs_conn & Hlogc & Hkindc & _).
  destruct (cleanup_events σ1) as (evs_clean & Hlog2 & _ & _ & _ & _ & Hraise).
  assert (console_events (main S (a :: url :: more) (Some k) stdin) κ
            = (evs_conn ++ evs_chat) ++ evs_clean) as ->.
  { unfold console_events. rewrite Hmain. simpl.
    rewrite Hlog2, Hlog1, Hlogc. simpl.
    by rewrite <-!app_assoc, drop_app_length. }
  rewrite Hmain. simpl.
  intros [Hlast|[_ Hlast]]%last_app_Some.
  - assert ((cleanup σ1).2 = Raise e) as -> by (apply Hraise; by eexists).
    done.
  - apply last_Some_elem_of, elem_of_app in Hlast as [Hin|Hin].
    + rewrite Forall_forall in Hkindc. by apply Hkindc in Hin.
    + rewrite Forall_forall in Hkind. by apply Hkind in Hin.
Qed.

(** Without its configuration [main] does nothing: with fewer than two
    command-line words it writes the usage line and exits with status 1,
    and with the URL but no API key (unset or empty) the construction of
    the client raises before the [try]; in both cases no call is made to
    the outside, [cleanup] included, and nothing is read. *)
Theorem main_refuses_without_configuration (argv : list string)
    (gemini_api_key : option string) (stdin : list string) (κ : console O) :
  (length argv < 2 →
   main S argv gemini_api_key stdin κ
   = ({| client := client κ; shown := shown κ ++ [usage] |},
      Raise (SystemExit "1")))
  ∧ (2 ≤ length argv →
     gemini_api_key = None ∨ gemini_api_key = Some "" →
     main S argv gemini_api_key stdin κ
     = (κ, Raise (Exn true "GEMINI_API_KEY environment variable is not set"))).
Proof.
  split.
  - intros Hlen. destruct argv as [|a [|url more]]; [done..|simpl in Hlen; lia].
  - intros Hlen Hkey.
    destruct argv as [|a [|url more]]; [simpl in Hlen; lia..|].
    unfold main, construct_client, mbind, M_bind. rewrite on_client_run.
    destruct κ as [σ lines]. by destruct Hkey as [-> | ->].
Qed.

End shell_facts.

(** ** On the sample worlds *)

Lemma process_query_follow_ups_isolated_witness :
  ∃ name args text,
    (name, args) ∈ requested_calls (response_of_parts [add_call_part])
    ∧ follow_up "what's 2 and 3 added" "add_integers"
        {[ "num1" := JInt 2; "num2" := JInt 3 ]} "5"
      = follow_up "what's 2 and 3 added" name args text.
Proof.
  apply (process_query_follow_ups_isolated
           "what's 2 and 3 added" working_connected
           (default [] (function_declarations (self working_connected)))
           (response_of_parts [add_call_part])
           (tail (new_events (process_query "what's 2 and 3 added")
                    working_connected))).
  - compute_eq.
  - assert (generate_requests
              (tail (new_events (process_query "what's 2 and 3 added")
                       working_connected))
            = [follow_up "what's 2 and 3 added" "add_integers"
                 {[ "num1" := JInt 2; "num2" := JInt 3 ]} "5"]) as ->
      by compute_eq.
    apply list_elem_of_here.
Defined.

Lemma process_query_text_only_witness :
  process_query "hello" talkative_connected
  = ({| world := (() : World talkative_world);
        log := log talkative_connected
          ++ [EvGenerate
                (default [] (function_declarations (self talkative_connected)))
                [user_prompt_content "hello"]
                (Ok (response_of_parts greeting_parts))];
        self := self talkative_connected |},
     Ok (String.concat newline
           (genai.text <$> all_parts (response_of_parts greeting_parts)))).
Proof.
  apply (process_query_text_only "hello" talkative_connected
           (default [] (function_declarations (self talkative_connected)))
           (() : World talkative_world) (response_of_parts greeting_parts)).
  - compute_eq.
  - reflexivity.
  - reflexivity.
Defined.

Lemma connect_to_sse_server_ready_witness :
  (is_Ok (connect_to_sse_server "http://localhost:8081/sse"
            (fresh_state working_world ())).2
   ↔ is_Some (function_declarations (self working_connected)))
  ∧ (is_Ok (connect_to_sse_server "http://localhost:8081/sse"
              (fresh_state working_world ())).2 →
     ∃ (w1 : World working_world) (streams : Streams working_world)
       (w2 : World working_world) (s : Session working_world)
       (w3 w4 : World working_world) tools decls,
       aenter_sse_client working_world "http://localhost:8081/sse"
         (world (fresh_state working_world ())) = (w1, Ok streams)
       ∧ aenter_ClientSession working_world streams w1 = (w2, Ok s)
       ∧ session_initialize working_world s w2 = (w3, Ok ())
       ∧ session_list_tools working_world s w3 = (w4, Ok tools)
       ∧ convert_mcp_tools_to_gemini (library working_world) tools = Ok decls
       ∧ world working_connected = w4
       ∧ self working_connected
         = {| session := Some s;
              _streams_context := Some (sse_client "http://localhost:8081/sse");
              _session_context := Some (ClientSession streams);
              function_declarations := Some decls |}).
Proof.
  apply (connect_to_sse_server_ready "http://localhost:8081/sse"
           (fresh_state working_world ())).
  reflexivity.
Defined.



Lemma main_exits_entered_contexts_witness :
  ∃ j, 0 < j
       ∧ console_events
           (main ascii_ops ["client_sse.py"; "http://localhost:8081/sse"]
              (Some "secret") ["exit"])
           (at_console (fresh_state working_world ())) !! j
         = Some (EvExit (O:=working_world)
                   (sse_client "http://localhost:8081/sse") None).
Proof.
  assert (console_events
            (main ascii_ops ["client_sse.py"; "http://localhost:8081/sse"]
               (Some "secret") ["exit"])
            (at_console (fresh_state working_world ()))
          = [EvEnter (O:=working_world)
               (sse_client "http://localhost:8081/sse") None;
             EvEnter (O:=working_world) (ClientSession ()) None;
             EvInitialize (O:=working_world) () None;
             EvListTools (O:=working_world) () None;
             EvExit (O:=working_world) (ClientSession ()) None;
             EvExit (O:=working_world)
               (sse_client "http://localhost:8081/sse") None])
    as Hevents by compute_eq.
  apply (main_exits_entered_contexts ascii_ops
           "client_sse.py" "http://localhost:8081/sse" [] "secret" ["exit"]
           (at_console (fresh_state working_world ()))
           ltac:(discriminate)) with (r := None).
  - rewrite Hevents. intros c r Hin.
    repeat (apply elem_of_cons in Hin as [Hin|Hin];
            [first [discriminate Hin | by injection Hin]|]).
    inversion Hin.
  - rewrite Hevents. reflexivity.
Defined.

Lemma main_teardown_error_supersedes_witness :
  (main ascii_ops ["client_sse.py"; "http://localhost:8081/sse"]
     (Some "secret") [] (at_console (fresh_state broken_session_world ()))).2
  = Raise (Exn true "session is already closed").
Proof.
  apply (main_teardown_error_supersedes ascii_ops
           "client_sse.py" "http://localhost:8081/sse" [] "secret" []
           (at_console (fresh_state broken_session_world ()))
           (ClientSession (() : Streams broken_session_world))).
  - discriminate.
  - compute_eq.
Defined.

(** * Further facts about the tool servers *)

(** [run_command] does not depend on its argument or on the world: it
    runs nothing, leaves no trace, and returns one and the same text for
    every command. *)
Theorem run_command_constant {O : ServerOutside} (command command' : string)
    (σ σ' : server_state O) :
  (main.run_command command σ).1 = σ
  ∧ (main.run_command command σ).2 = (main.run_command command' σ').2.
Proof. done. Qed.

Section web_search_more.
Context {O : ServerOutside}.

(** [web_search], in both servers, makes exactly one search, for the query
    as given, and never raises an [Exception]: it returns the [results]
    entry of the response as it is, the dict with the text ['results'] as
    its [error] when the response has no such entry, the dict with the
    exception's text when the search raised an [Exception]; only what is
    not an [Exception] goes on to the caller. *)
Theorem web_search_outcome (query : string) (σ : server_state O) :
  server_sse.web_search query σ = main.web_search query σ
  ∧ server_log (main.web_search query σ).1 = server_log σ ++ [EvSearch query]
  ∧ (main.web_search query σ).2
    = match (tavily_search O query (server_world σ)).2 with
      | Ok response =>
          Ok (default (JObj {[ "error" := JStr "'results'" ]})
                (response !! "results"))
      | Raise e =>
          if exn_is_Exception e
          then Ok (JObj {[ "error" := JStr (exn_str e) ]})
          else Raise e
      end.
Proof.
  split; [done|].
  unfold main.web_search, try_except, server_perform, getitem, mbind, M_bind.
  simpl.
  destruct (tavily_search O query (server_world σ)) as [w [response|e]]; simpl.
  - by destruct (response !! "results").
  - by destruct (exn_is_Exception e).
Qed.

End web_search_more.

(** [add_integers] gives the sum exactly when neither number is negative,
    zero included, and the error dict otherwise; it never gives both keys,
    and the order of the numbers does not matter. *)
Theorem add_integers_sum_iff_not_negative (num1 num2 : Z) :
  (multi_tool_server.add_integers num1 num2
   = JObj {[ "result" := JInt (num1 + num2) ]}
   ↔ (0 ≤ num1 ∧ 0 ≤ num2)%Z)
  ∧ (multi_tool_server.add_integers num1 num2
     = JObj {[ "error" := JStr "Both integers must be positive" ]}
     ↔ (num1 < 0 ∨ num2 < 0)%Z)
  ∧ multi_tool_server.add_integers num1 num2
    = multi_tool_server.add_integers num2 num1.
Proof.
  unfold multi_tool_server.add_integers.
  split_and!.
  - destruct (decide (num1 < 0 ∨ num2 < 0)%Z) as [Hneg|Hpos].
    + split; [|lia]. intros Heq. exfalso.
      apply (f_equal (λ j, match j with
                           | JObj d => dom d
                           | _ => ∅
                           end)) in Heq.
      rewrite !dom_singleton_L in Heq.
      assert ("error" ∈ ({[ "result" ]} : gset string)) as Hin
        by (rewrite <-Heq; by apply elem_of_singleton).
      by apply elem_of_singleton in Hin.
    + split; [lia|done].
  - destruct (decide (num1 < 0 ∨ num2 < 0)%Z) as [Hneg|Hpos]; [done|].
    split; [|done]. intros Heq. exfalso.
    apply (f_equal (λ j, match j with
                         | JObj d => dom d
                         | _ => ∅
                         end)) in Heq.
    rewrite !dom_singleton_L in Heq.
    assert ("result" ∈ ({[ "error" ]} : gset string)) as Hin
      by (rewrite <-Heq; by apply elem_of_singleton).
    by apply elem_of_singleton in Hin.
  - destruct (decide (num1 < 0 ∨ num2 < 0)%Z),
      (decide (num2 < 0 ∨ num1 < 0)%Z); try done; try lia.
    by rewrite Z.add_comm.
Qed.

(** * Facts about [get_weather] *)

Section weather_facts.
Context {O : WeatherOutside}.
Implicit Types (σ : weather_state O) (e : pyexc) (data : json).

Lemma own_error_bind {A B} (r : result A) (k : A → result B) :
  own_error r → (∀ a, own_error (k a)) → own_error (r ≫= k).
Proof. destruct r as [a|e]; [intros _ Hk; apply Hk|done]. Qed.

Lemma py_getitem_own_error x key : own_error (py_getitem (O:=O) x key).
Proof.
  destruct x as [| | | | | |d]; try done. simpl. by destruct (d !! key).
Qed.

Lemma py_contains_own_error key x : own_error (py_contains (O:=O) key x).
Proof. by destruct x. Qed.

Lemma py_get_own_error x key fallback : own_error (py_get x key fallback).
Proof. by destruct x. Qed.

Lemma weather_report_own_error data :
  own_error (multi_tool_server.weather_report (O:=O) data).
Proof.
  unfold multi_tool_server.weather_report.
  apply own_error_bind; [apply py_contains_own_error|]. intros [].
  - apply own_error_bind; [apply py_getitem_own_error|]. intros error.
    apply own_error_bind; [apply py_get_own_error|]. by intros message.
  - repeat (apply own_error_bind; [apply py_getitem_own_error|]; intros ?).
    done.
Qed.

(** [get_weather], step by step. *)
Lemma get_weather_run location days aqi σ :
  multi_tool_server.get_weather location days aqi σ =
    if decide (py_strip O location = "") then
      (σ, Returned (multi_tool_server.weather_error "validation_error"
                      (ValueError_ "Location must be a non-empty string")))
    else
      match WEATHERAPI_KEY O with
      | None =>
          (σ, Returned (multi_tool_server.weather_error "unexpected_error"
                          (KeyError_ "WEATHERAPI_KEY")))
      | Some key =>
          let out := requests_get O (multi_tool_server.weather_url days)
                       (multi_tool_server.weather_params key location days aqi)
                       30 (weather_world σ) in
          ({| weather_world := out.1;
              weather_log := weather_log σ
                ++ [EvGet (multi_tool_server.weather_url days)
                      (multi_tool_server.weather_params key location days aqi)
                      30] |},
           weather_answer
             (response ← out.2;
              response.1;;
              data ← response.2;
              multi_tool_server.weather_report (O:=O) data))
      end.
Proof.
  unfold multi_tool_server.get_weather, try_except_clauses, mbind, W_bind,
    pure_result, multi_tool_server.environ_WEATHERAPI_KEY, throw, mret, W_ret,
    http_get.
  destruct (decide (py_strip O location = "")) as [Hblank|Hblank]; [done|].
  destruct (WEATHERAPI_KEY O) as [key|]; [|done].
  destruct (requests_get O _ _ 30 (weather_world σ))
    as [w [[status body]|e]]; simpl; [|by unfold weather_handlers; repeat case_match].
  destruct status as [[]|e]; simpl;
    [|by unfold weather_handlers; repeat case_match].
  destruct body as [data|e]; simpl;
    [|by unfold weather_handlers; repeat case_match].
  destruct (multi_tool_server.weather_report data) as [v|e]; simpl; [done|].
  unfold weather_handlers; by repeat case_match.
Qed.

Lemma weather_error_status error_type e d :
  multi_tool_server.weather_error error_type e = JObj d →
  d !! "status" = Some (JStr "error").
Proof. intros [= <-]. by rewrite lookup_insert_eq. Qed.

Lemma weather_error_not_success error_type e report :
  multi_tool_server.weather_error error_type e
  ≠ JObj {[ "status" := JStr "success"; "data" := JObj report ]}.
Proof.
  unfold multi_tool_server.weather_error. intros Heq.
  apply (f_equal (λ j, match j with
                       | JObj m => m !! "status"
                       | _ => None
                       end)) in Heq.
  cbv beta iota in Heq. by rewrite !lookup_insert_eq in Heq.
Qed.

Local Ltac refute_success :=
  let Heq := fresh "Heq" in
  intros Heq; exfalso;
  apply (f_equal (λ r, match r with
                       | Returned v => v
                       | Raised _ => JNull
                       end)) in Heq;
  cbv beta iota in Heq; by apply weather_error_not_success in Heq.

Lemma weather_handlers_cases e :
  (∃ error_type,
     weather_handlers e
     = Returned (multi_tool_server.weather_error error_type e)
     ∧ error_type ∈ ["network_error"; "validation_error"; "unexpected_error"])
  ∨ (weather_handlers e = Raised e
     ∧ isinstance e "RequestException" = false
     ∧ isinstance e "ValueError" = false
     ∧ isinstance e "Exception" = false).
Proof.
  unfold weather_handlers.
  destruct (isinstance e "RequestException");
    [left; eexists; split; [done|set_solver]|].
  destruct (isinstance e "ValueError");
    [left; eexists; split; [done|set_solver]|].
  destruct (isinstance e "Exception");
    [left; eexists; split; [done|set_solver]|].
  by right.
Qed.

(** What [weather_report] returns, and from which bodies. *)
Lemma weather_report_returns data v :
  multi_tool_server.weather_report (O:=O) data = Returned v ↔
  ∃ d loc cur cond name temp_c text humidity wind_kph last_updated,
    data = JObj d
    ∧ d !! "error" = None
    ∧ d !! "location" = Some (JObj loc) ∧ loc !! "name" = Some name
    ∧ d !! "current" = Some (JObj cur)
    ∧ cur !! "temp_c" = Some temp_c
    ∧ cur !! "condition" = Some (JObj cond) ∧ cond !! "text" = Some text
    ∧ cur !! "humidity" = Some humidity
    ∧ cur !! "wind_kph" = Some wind_kph
    ∧ cur !! "last_updated" = Some last_updated
    ∧ v = JObj {[ "status" := JStr "success";
                  "data" :=
                    JObj {[ "location" := name;
                            "temperature" := temp_c;
                            "condition" := text;
                            "humidity" := humidity;
                            "wind" := JStr (text_of (O:=O) wind_kph +:+ " km/h");
                            "last_updated" := last_updated ]} ]}.
Proof.
  split.
  - unfold multi_tool_server.weather_report.
    destruct data as [| | | |s|items|d]; try done.
    + simpl. by destruct (is_substring "error" s).
    + simpl. by destruct (existsb _ items).
    + simpl. destruct (d !! "error") as [err|] eqn:Herr.
      { rewrite bool_decide_true by eauto. simpl. by destruct err. }
      rewrite bool_decide_false by (by intros [? ?]). simpl.
      destruct (d !! "location") as [[| | | | | |loc]|] eqn:Hloc; try done.
      simpl. destruct (loc !! "name") as [name|] eqn:Hname; [|done]. simpl.
      destruct (d !! "current") as [[| | | | | |cur]|] eqn:Hcur; try done.
      simpl. destruct (cur !! "temp_c") as [temp_c|] eqn:Htemp; [|done]. simpl.
      destruct (cur !! "condition") as [[| | | | | |cond]|] eqn:Hcond;
        try done.
      simpl. destruct (cond !! "text") as [text|] eqn:Htext; [|done]. simpl.
      destruct (cur !! "humidity") as [humidity|] eqn:Hhum; [|done]. simpl.
      destruct (cur !! "wind_kph") as [wind_kph|] eqn:Hwind; [|done]. simpl.
      destruct (cur !! "last_updated") as [last_updated|] eqn:Hlast; [|done].
      simpl. intros [= <-].
      by exists d, loc, cur, cond, name, temp_c, text, humidity, wind_kph,
        last_updated.
  - intros (d & loc & cur & cond & name & temp_c & text & humidity & wind_kph
            & last_updated & -> & Herr & Hloc & Hname & Hcur & Htemp & Hcond
            & Htext & Hhum & Hwind & Hlast & ->).
    unfold multi_tool_server.weather_report, py_contains.
    rewrite bool_decide_false by (rewrite Herr; by intros [? ?]). simpl.
    rewrite Hloc. simpl. rewrite Hname. simpl. rewrite Hcur. simpl.
    rewrite Htemp. simpl. rewrite Hcond. simpl. rewrite Htext. simpl.
    rewrite Hhum. simpl. rewrite Hwind. simpl. by rewrite Hlast.
Qed.

(** [get_weather] lets no [Exception] out: it returns the report dict, or
    an error dict of one of its three kinds; the only exceptions it lets
    through are those that are instances of none of the three classes of
    its [except] clauses, [Exception] among them. *)
Theorem get_weather_catches_every_Exception (location : string) (days : Z)
    (aqi : bool) (σ : weather_state O) :
  match (multi_tool_server.get_weather location days aqi σ).2 with
  | Returned v =>
      (∃ report,
         v = JObj {[ "status" := JStr "success"; "data" := JObj report ]})
      ∨ (∃ error_type e,
           v = multi_tool_server.weather_error error_type e
           ∧ error_type
             ∈ ["network_error"; "validation_error"; "unexpected_error"])
  | Raised e =>
      isinstance e "RequestException" = false
      ∧ isinstance e "ValueError" = false
      ∧ isinstance e "Exception" = false
  end.
Proof.
  rewrite get_weather_run.
  destruct (decide (py_strip O location = "")) as [Hblank|Hblank]; simpl.
  { right. eexists _, _. split; [done|set_solver]. }
  destruct (WEATHERAPI_KEY O) as [key|]; simpl.
  2:{ right. eexists _, _. split; [done|set_solver]. }
  match goal with
  | |- match weather_answer ?r with _ => _ end =>
      destruct r as [v|e] eqn:Hrun; simpl
  end.
  - left.
    destruct (requests_get O _ _ 30 (weather_world σ)).2
      as [[[[]|?] [data|?]]|?]; try done.
    simpl in Hrun. apply weather_report_returns in Hrun.
    destruct Hrun as (?&?&?&?&?&?&?&?&?&?&_&_&_&_&_&_&_&_&_&_&_&->).
    by eexists.
  - destruct (weather_handlers_cases e)
      as [(error_type & -> & Hin)|(-> & ? & ? & ?)]; [|done].
    right. by eexists _, _.
Qed.

(** A blank location is refused before anything else happens: the answer
    is the validation error, and no request is made, whatever the other
    arguments, the API key and the state of the network. *)
Theorem get_weather_blank_location (location : string) (days : Z) (aqi : bool)
    (σ : weather_state O) :
  py_strip O location = "" →
  multi_tool_server.get_weather location days aqi σ
  = (σ, Returned (JObj {[ "status" := JStr "error";
                          "error_type" := JStr "validation_error";
                          "message" :=
                            JStr "Location must be a non-empty string" ]})).
Proof. intros Hblank. rewrite get_weather_run. by rewrite decide_True. Qed.

(** [get_weather] makes at most one request, and exactly one when the
    location is not blank and the API key is set: to [forecast.json] when
    [days] exceeds 1 and to [current.json] otherwise, with the key, the
    location as given (not stripped), [days], and [yes] or [no] for [aqi],
    and a timeout of 30 seconds.  What the request brings has no influence
    on it, and it is never repeated. *)
Theorem get_weather_one_request (location : string) (days : Z) (aqi : bool)
    (σ : weather_state O) :
  weather_log (multi_tool_server.get_weather location days aqi σ).1
  = weather_log σ
    ++ (if decide (py_strip O location = "") then []
        else match WEATHERAPI_KEY O with
             | None => []
             | Some key =>
                 [EvGet ("https://api.weatherapi.com/v1/"
                           +:+ (if decide (1 < days)%Z then "forecast.json"
                                else "current.json"))
                    {[ "key" := JStr key; "q" := JStr location;
                       "days" := JInt days;
                       "aqi" := JStr (if aqi then "yes" else "no") ]}
                    30]
             end).
Proof.
  rewrite get_weather_run.
  destruct (decide (py_strip O location = "")); simpl; [by rewrite app_nil_r|].
  destruct (WEATHERAPI_KEY O); simpl; [done|by rewrite app_nil_r].
Qed.

(** The first [except] clause wins: when the request, the status check or
    the decoding of the body raises a [RequestException], the answer is a
    network error with the exception's text, also when the exception is a
    [ValueError] as well (as the one for a body that is not JSON), and
    whatever the body would have said. *)
Theorem get_weather_network_error (location : string) (days : Z) (aqi : bool)
    (σ : weather_state O) (key : string) (e : pyexc) :
  py_strip O location ≠ "" →
  WEATHERAPI_KEY O = Some key →
  ((requests_get O (multi_tool_server.weather_url days)
      (multi_tool_server.weather_params key location days aqi) 30
      (weather_world σ)).2
   ≫= λ response, response.1 ≫= λ _, response.2) = Raised e →
  isinstance e "RequestException" = true →
  (multi_tool_server.get_weather location days aqi σ).2
  = Returned (JObj {[ "status" := JStr "error";
                      "error_type" := JStr "network_error";
                      "message" := JStr (exc_text e) ]}).
Proof.
  intros Hblank Hkey Hraise Hclass. rewrite get_weather_run.
  rewrite decide_False, Hkey by done. simpl.
  destruct (requests_get O _ _ 30 (weather_world σ)).2
    as [[[[]|e1] [data|e2]]|e3]; simpl in *;
    try discriminate Hraise; injection Hraise as ->;
    unfold weather_handlers; by rewrite Hclass.
Qed.

(** An error payload in a body that passed the status check is a
    validation error: when the decoded body is a dict with a dict under
    [error], the answer carries the [message] of that dict as a string, or
    [Unknown error] when it has none, also when the body has the weather
    data as well. *)
Theorem get_weather_api_error (location : string) (days : Z) (aqi : bool)
    (σ : weather_state O) (key : string) (w : WeatherWorld O)
    (d error : gmap string json) :
  py_strip O location ≠ "" →
  WEATHERAPI_KEY O = Some key →
  requests_get O (multi_tool_server.weather_url days)
    (multi_tool_server.weather_params key location days aqi) 30
    (weather_world σ)
  = (w, Returned (Returned tt, Returned (JObj d))) →
  d !! "error" = Some (JObj error) →
  (multi_tool_server.get_weather location days aqi σ).2
  = Returned (JObj {[ "status" := JStr "error";
                      "error_type" := JStr "validation_error";
                      "message" :=
                        JStr (text_of (O:=O)
                                (default (JStr "Unknown error")
                                   (error !! "message"))) ]}).
Proof.
  intros Hblank Hkey Hget Herr.
  assert (multi_tool_server.weather_report (O:=O) (JObj d)
          = Raised (ValueError_
                      (text_of (O:=O)
                         (default (JStr "Unknown error") (error !! "message")))))
    as Hreport.
  { unfold multi_tool_server.weather_report, py_contains.
    rewrite bool_decide_true by (rewrite Herr; by eexists).
    unfold py_getitem. by rewrite Herr. }
  rewrite get_weather_run.
  rewrite decide_False, Hkey by done. cbv zeta. rewrite Hget.
  cbn [fst snd mbind result_bind]. by rewrite Hreport.
Qed.

(** [get_weather] reports success exactly when the request went through,
    the status check and the decoding passed, and the body is a dict
    without [error] that has the location's name and the five fields of the
    current conditions; the report then holds exactly those six values,
    the wind with its unit.  A body that lacks one of them never yields a
    partial report, and the forecast asked for with [days] is not in it. *)
Theorem get_weather_success_iff (location : string) (days : Z) (aqi : bool)
    (σ : weather_state O) (report : gmap string json) :
  (multi_tool_server.get_weather location days aqi σ).2
  = Returned (JObj {[ "status" := JStr "success"; "data" := JObj report ]})
  ↔ ∃ key d loc cur cond name temp_c text humidity wind_kph last_updated,
      py_strip O location ≠ ""
      ∧ WEATHERAPI_KEY O = Some key
      ∧ (requests_get O (multi_tool_server.weather_url days)
           (multi_tool_server.weather_params key location days aqi) 30
           (weather_world σ)).2
        = Returned (Returned tt, Returned (JObj d))
      ∧ d !! "error" = None
      ∧ d !! "location" = Some (JObj loc) ∧ loc !! "name" = Some name
      ∧ d !! "current" = Some (JObj cur)
      ∧ cur !! "temp_c" = Some temp_c
      ∧ cur !! "condition" = Some (JObj cond) ∧ cond !! "text" = Some text
      ∧ cur !! "humidity" = Some humidity
      ∧ cur !! "wind_kph" = Some wind_kph
      ∧ cur !! "last_updated" = Some last_updated
      ∧ report = {[ "location" := name;
                    "temperature" := temp_c;
                    "condition" := text;
                    "humidity" := humidity;
                    "wind" := JStr (text_of (O:=O) wind_kph +:+ " km/h");
                    "last_updated" := last_updated ]}.
Proof.
  rewrite get_weather_run. split.
  - destruct (decide (py_strip O location = "")) as [Hblank|Hblank]; simpl.
    { refute_success. }
    destruct (WEATHERAPI_KEY O) as [key|]; simpl.
    2:{ refute_success. }
    destruct (requests_get O _ _ 30 (weather_world σ)).2
      as [[[[]|e1] [data|e2]]|e3] eqn:Hget; simpl;
      try (destruct (weather_handlers_cases e1)
             as [(error_type & -> & Hin)|(-> & ? & ? & ?)];
           [refute_success|done]);
      try (destruct (weather_handlers_cases e2)
             as [(error_type & -> & Hin)|(-> & ? & ? & ?)];
           [refute_success|done]);
      try (destruct (weather_handlers_cases e3)
             as [(error_type & -> & Hin)|(-> & ? & ? & ?)];
           [refute_success|done]).
    destruct (multi_tool_server.weather_report data) as [v|e] eqn:Hrun; simpl.
    + intros [= ->]. apply weather_report_returns in Hrun.
      destruct Hrun as (d & loc & cur & cond & name & temp_c & text & humidity
                        & wind_kph & last_updated & -> & Herr & Hloc & Hname
                        & Hcur & Htemp & Hcond & Htext & Hhum & Hwind & Hlast
                        & Heq).
      exists key, d, loc, cur, cond, name, temp_c, text, humidity, wind_kph,
        last_updated.
      split_and!; try done.
      apply (f_equal (λ j, match j with
                           | JObj m => m !! "data"
                           | _ => None
                           end)) in Heq.
      cbv beta iota in Heq.
      rewrite !lookup_insert_ne, !lookup_singleton_eq in Heq by done.
      apply (inj Some) in Heq.
      by apply (f_equal (λ j, match j with
                              | JObj m => m
                              | _ => ∅
                              end)) in Heq.
    + destruct (weather_handlers_cases e)
        as [(error_type & -> & Hin)|(-> & ? & ? & ?)]; [|done].
      refute_success.
  - intros (key & d & loc & cur & cond & name & temp_c & text & humidity
            & wind_kph & last_updated & Hblank & Hkey & Hget & Hrest).
    rewrite decide_False, Hkey by done. simpl. rewrite Hget. simpl.
    destruct Hrest as (Herr & Hloc & Hname & Hcur & Htemp & Hcond & Htext
                       & Hhum & Hwind & Hlast & ->).
    assert (multi_tool_server.weather_report (O:=O) (JObj d)
            = Returned
                (JObj {[ "status" := JStr "success";
                         "data" :=
                           JObj {[ "location" := name;
                                   "temperature" := temp_c;
                                   "condition" := text;
                                   "humidity" := humidity;
                                   "wind" :=
                                     JStr (text_of (O:=O) wind_kph +:+ " km/h");
                                   "last_updated" := last_updated ]} ]}))
      as ->; [|done].
    apply weather_report_returns.
    by exists d, loc, cur, cond, name, temp_c, text, humidity, wind_kph,
      last_updated.
Qed.


End weather_facts.

(** ** On the sample weather service *)

Lemma get_weather_blank_location_witness :
  multi_tool_server.get_weather "   " 3 true (weather_start sample_weather ())
  = (weather_start sample_weather (),
     Returned (JObj {[ "status" := JStr "error";
                       "error_type" := JStr "validation_error";
                       "message" :=
                         JStr "Location must be a non-empty string" ]})).
Proof.
  apply (get_weather_blank_location (O:=sample_weather) "   " 3 true
           (weather_start sample_weather ())).
  reflexivity.
Defined.

Lemma get_weather_network_error_witness :
  (multi_tool_server.get_weather "Garbled" 1 false
     (weather_start sample_weather ())).2
  = Returned (JObj {[ "status" := JStr "error";
                      "error_type" := JStr "network_error";
                      "message" :=
                        JStr "Expecting value: line 1 column 1 (char 0)" ]}).
Proof.
  apply (get_weather_network_error (O:=sample_weather) "Garbled" 1 false
           (weather_start sample_weather ()) "k"
           (JSONDecodeError_ "Expecting value: line 1 column 1 (char 0)")).
  - discriminate.
  - reflexivity.
  - compute_eq.
  - compute_eq.
Defined.

Lemma get_weather_api_error_witness :
  (multi_tool_server.get_weather "Nowhere" 1 false
     (weather_start sample_weather ())).2
  = Returned (JObj {[ "status" := JStr "error";
                      "error_type" := JStr "validation_error";
                      "message" :=
                        JStr (text_of (O:=sample_weather)
                                (default (JStr "Unknown error")
                                   (({[ "code" := JInt 1006;
                                        "message" :=
                                          JStr "No matching location found." ]}
                                       : gmap string json)
                                      !! "message"))) ]}).
Proof.
  apply (get_weather_api_error (O:=sample_weather) "Nowhere" 1 false
           (weather_start sample_weather ()) "k" ()
           {[ "error" := JObj {[ "code" := JInt 1006;
                                 "message" :=
                                   JStr "No matching location found." ]} ]}).
  - discriminate.
  - reflexivity.
  - compute_eq.
  - compute_eq.
Defined.

(** In Paris, whatever the number of days asked for. *)
Lemma get_weather_success_iff_witness :
  (multi_tool_server.get_weather "Paris" 3 false
     (weather_start sample_weather ())).2
  = Returned
      (JObj {[ "status" := JStr "success";
               "data" :=
                 JObj {[ "location" := JStr "Paris";
                         "temperature" := JInt 21;
                         "condition" := JStr "Sunny";
                         "humidity" := JInt 40;
                         "wind" := JStr "11 km/h";
                         "last_updated" := JStr "2024-06-01 12:00" ]} ]}).
Proof.
  apply (proj2 (get_weather_success_iff (O:=sample_weather) "Paris" 3 false
                  (weather_start sample_weather ()) _)).
  exists "k",
    {[ "location" := JObj {[ "name" := JStr "Paris";
                             "country" := JStr "France" ]};
       "current" :=
         JObj {[ "temp_c" := JInt 21;
                 "condition" := JObj {[ "text" := JStr "Sunny";
                                        "code" := JInt 1000 ]};
                 "humidity" := JInt 40;
                 "wind_kph" := JInt 11;
                 "last_updated" := JStr "2024-06-01 12:00" ]} ]},
    {[ "name" := JStr "Paris"; "country" := JStr "France" ]},
    {[ "temp_c" := JInt 21;
       "condition" := JObj {[ "text" := JStr "Sunny"; "code" := JInt 1000 ]};
       "humidity" := JInt 40;
       "wind_kph" := JInt 11;
       "last_updated" := JStr "2024-06-01 12:00" ]},
    {[ "text" := JStr "Sunny"; "code" := JInt 1000 ]},
    (JStr "Paris"), (JInt 21), (JStr "Sunny"), (JInt 40), (JInt 11),
    (JStr "2024-06-01 12:00").
  split; [discriminate|].
  split; [reflexivity|].
  repeat (split; [compute_eq|]).
  reflexivity.
Defined.
